(** * Task-list, task and comment operations of the Planka MCP adapter

    A shallow embedding of [src/operations/tasks.ts] (task lists and tasks)
    and of the comment operations that follow it in the same source file.

    Every operation is an [async] function that talks to the board service
    through one primitive, [plankaRequest], awaits each call before issuing
    the next, may throw, and may update the module-level [taskCardIdMap].
    The embedding is a state-and-exception monad over a state that holds the
    remote world, the trace of gateway calls, the map and the store of the
    caller's task objects.

    Two things of the source are left out: what [console.error] prints, and
    a write to [taskCardIdMap] at the key [__proto__], which the object
    does not store (the map is written at the ids of task lists, which
    the service generates). A read of [taskCardIdMap] sees the members
    that the object inherits from [Object.prototype]. *)

From Stdlib Require Import ZArith Lia Sorted.
From stdpp Require Import base option list strings pretty gmap fin_maps.

Set Warnings "-register-all".
Local Open Scope string_scope.
Local Open Scope Z_scope.
Local Open Scope list_scope.

(** ** JavaScript values

    [plankaRequest] returns parsed JSON, typed [any] in the source; property
    reads on it can also yield [undefined]. Numbers are the integers: the
    only arithmetic of the source is [65535 * (i + 1)]. An object is its list
    of own properties, read first match first. *)

Inductive value : Type :=
| VUndefined
| VNull
| VBool (b : bool)
| VNum (n : Z)
| VStr (s : string)
| VArr (items : list value)
| VObj (fields : list (string * value)).

(** [fields[k]] on own properties: [undefined] when the key is absent. *)
Fixpoint assoc (k : string) (fields : list (string * value)) : value :=
  match fields with
  | [] => VUndefined
  | (k', v) :: rest => if String.eqb k k' then v else assoc k rest
  end.

(** JavaScript truthiness: [undefined], [null], [false], [0] and the empty
    string are falsy, everything else (every array and object) is truthy. *)
Definition truthy (v : value) : bool :=
  match v with
  | VUndefined | VNull => false
  | VBool b => b
  | VNum n => negb (n =? 0)
  | VStr s => negb (String.eqb s "")
  | VArr _ | VObj _ => true
  end.

(** [a || b] *)
Definition js_or (a b : value) : value := if truthy a then a else b.

(** [Array.isArray(v)] *)
Definition isArray (v : value) : bool :=
  match v with VArr _ => true | _ => false end.

(** [String(v)], which is also what a template literal and a property key
    apply to a value: an array joins its elements with commas, [null] and
    [undefined] elements printing as nothing. *)
Fixpoint js_String (v : value) : string :=
  match v with
  | VUndefined => "undefined"
  | VNull => "null"
  | VBool true => "true"
  | VBool false => "false"
  | VNum n => pretty n
  | VStr s => s
  | VArr items =>
      (fix join (l : list value) : string :=
         match l with
         | [] => ""
         | x :: l' =>
             let sx := match x with
                       | VUndefined | VNull => ""
                       | _ => js_String x
                       end in
             match l' with
             | [] => sx
             | _ :: _ => sx +:+ "," +:+ join l'
             end
         end) items
  | VObj _ => "[object Object]"
  end.

(** ** Thrown values and outcomes *)

(** What a [catch] clause can receive: an instance of [Error] (the gateway's
    typed failure, a [TypeError], a [ZodError], or an [Error] built by these
    operations) with its message, or any other value. *)
Inductive exn : Type :=
| JsError (message : string)
| JsThrown (v : value).

(** [error instanceof Error ? error.message : String(error)] *)
Definition error_message (error : exn) : string :=
  match error with
  | JsError message => message
  | JsThrown v => js_String v
  end.

Inductive outcome (A : Type) : Type :=
| Returned (a : A)
| Thrown (e : exn).
Arguments Returned {A} a.
Arguments Thrown {A} e.

Definition is_Returned {A} (o : outcome A) : bool :=
  match o with Returned _ => true | Thrown _ => false end.

(** The message of the [TypeError] raised by reading property [k] of
    [undefined] or [null]. *)
Definition type_error (v : value) (k : string) : exn :=
  JsError ("Cannot read properties of " +:+ js_String v +:+
           " (reading '" +:+ k +:+ "')").

(** [v.k]: throws on [undefined] and [null], reads the own property of an
    object, and is [undefined] on the other values for the keys read here
    ([item], [id], [included], [taskLists], [tasks], [position]). *)
Definition get_prop (v : value) (k : string) : outcome value :=
  match v with
  | VUndefined | VNull => Thrown (type_error v k)
  | VObj fields => Returned (assoc k fields)
  | VBool _ | VNum _ | VStr _ | VArr _ => Returned VUndefined
  end.

(** [v?.k] *)
Definition opt_prop (v : value) (k : string) : value :=
  match v with
  | VObj fields => assoc k fields
  | _ => VUndefined
  end.

(** ** Requests *)

Inductive Method : Type := GET | POST | PATCH | DELETE.

(** The second argument of [plankaRequest], omitted by the plain reads. *)
Record RequestOptions : Type := mkOptions {
  method : Method;
  body : option value
}.

(** The path templates of the source, with the interpolated text. *)
Inductive Endpoint : Type :=
| CardTaskLists (cardId : string)
| Card (cardId : string)
| TaskList (id : string)
| TaskListTasks (taskListId : string)
| Task (id : string)
| CardComments (cardId : string)
| Comment (id : string).

Definition path (e : Endpoint) : string :=
  match e with
  | CardTaskLists cardId => "/api/cards/" +:+ cardId +:+ "/task-lists"
  | Card cardId => "/api/cards/" +:+ cardId
  | TaskList id => "/api/task-lists/" +:+ id
  | TaskListTasks taskListId => "/api/task-lists/" +:+ taskListId +:+ "/tasks"
  | Task id => "/api/tasks/" +:+ id
  | CardComments cardId => "/api/cards/" +:+ cardId +:+ "/comments"
  | Comment id => "/api/comments/" +:+ id
  end.

(** One awaited gateway call, with what it answered. *)
Record Call : Type := mkCall {
  call_endpoint : Endpoint;
  call_options : option RequestOptions;
  call_response : outcome value
}.

Definition call_method (c : Call) : Method :=
  match call_options c with
  | Some o => method o
  | None => GET
  end.

(** ** Collaborators

    What the operations import and this file does not define: the gateway
    [plankaRequest] of [../common/utils.js], which answers a path and its
    options with parsed JSON or a thrown failure and changes the remote
    service; the task schema of [../common/types.js]; and the two texts
    that the [zod] and [JSON] libraries produce. *)

Class Collaborators : Type := {
  World : Type;
  gateway : string -> option RequestOptions -> World -> World * outcome value;
  (** [PlankaTaskSchema.safeParse(v)]: the parsed entity, when [v] has the
      task shape. *)
  PlankaTaskSchema : value -> option value;
  (** The message of the [ZodError] that the named schema raises on [v]. *)
  zod_message : string -> value -> string;
  JSON_stringify : value -> string
}.

(** ** Entities with a shape known to this module *)

(** Input of [createTask]; the elements of [options.tasks]. *)
Record CreateTaskOptions : Type := mkCreateTask {
  ct_cardId : string;
  ct_name : string;
  ct_position : option Z
}.

(** Input of [updateTask]. *)
Record TaskListPatch : Type := mkTaskListPatch {
  tlp_name : option string;
  tlp_position : option Z
}.

(** Input of [createTaskInTaskList]. [taskListId] is declared a string;
    [createTaskListWithTasks] passes it [taskList.id], whatever that is, and
    the path template prints it. *)
Record CreateTaskInTaskListParams : Type := mkCreateItem {
  ci_taskListId : value;
  ci_name : string;
  ci_position : option Z;
  ci_isCompleted : option bool
}.

(** Input of [updateTaskInTaskList]. *)
Record TaskPatch : Type := mkTaskPatch {
  tp_name : option string;
  tp_position : option Z;
  tp_isCompleted : option bool
}.

(** An element of [params.tasks] of [createTaskListWithTasks]. *)
Record TaskSpec : Type := mkTaskSpec {
  ts_name : string;
  ts_isCompleted : option bool
}.

(** What [CommentActionSchema] parses to. *)
Record CommentAction : Type := mkComment {
  ca_id : string;
  ca_type : string;
  ca_text : string;
  ca_cardId : string;
  ca_userId : string;
  ca_createdAt : string;
  ca_updatedAt : option string
}.

(** [{ success: true }] *)
Record Ack : Type := mkAck { success : bool }.

(** A reference to one of the caller's task objects: [batchCreateTasks]
    writes to the objects it is given. *)
Definition ref : Type := nat.

(** The entries of [results], [{ success: true, result }] and
    [{ success: false, error: { message } }]. *)
Inductive TaskResult : Type :=
| ResultSuccess (result : value)
| ResultFailure (message : string).

(** The entries of [failures]; [task] is the object of the input. *)
Record TaskError : Type := mkTaskError {
  te_index : nat;
  te_task : ref;
  te_error : string
}.

Record BatchResult : Type := mkBatch {
  results : list TaskResult;
  successes : list value;
  failures : list TaskError
}.

(** [{ taskList, tasks }] *)
Record TaskListWithTasks : Type := mkTaskListWithTasks {
  wt_taskList : value;
  wt_tasks : list value
}.

(** An object literal with the properties that are present. *)
Definition obj (fields : list (string * option value)) : value :=
  VObj (omap (fun '(k, o) => match o with Some v => Some (k, v) | None => None end) fields).

(** ** The schemas written out in the source *)

(** [included: z.record(z.any()).optional()]: absent, or an object. *)
Definition included_ok (fields : list (string * value)) : bool :=
  match assoc "included" fields with
  | VUndefined | VObj _ => true
  | _ => false
  end.

(** [CommentActionSchema.safeParse(v)]: an object whose [id], [cardId],
    [userId] and [createdAt] are strings, whose [type] is the literal
    [commentCard], whose [data] is an object with a string [text] and whose
    [updatedAt] is a string or [null]; other properties are dropped. *)
Definition CommentActionSchema (v : value) : option CommentAction :=
  match v with
  | VObj fields =>
      match assoc "id" fields, assoc "type" fields, assoc "data" fields,
            assoc "cardId" fields, assoc "userId" fields,
            assoc "createdAt" fields with
      | VStr id, VStr type, VObj data, VStr cardId, VStr userId, VStr createdAt =>
          if String.eqb type "commentCard" then
            match assoc "text" data, assoc "updatedAt" fields with
            | VStr text, VStr updatedAt =>
                Some (mkComment id type text cardId userId createdAt (Some updatedAt))
            | VStr text, VNull =>
                Some (mkComment id type text cardId userId createdAt None)
            | _, _ => None
            end
          else None
      | _, _, _, _, _, _ => None
      end
  | _ => None
  end.

(** [z.array(CommentActionSchema).safeParse(v)] *)
Definition CommentActionArraySchema (v : value) : option (list CommentAction) :=
  match v with
  | VArr items => mapM CommentActionSchema items
  | _ => None
  end.

(** [CommentActionsResponseSchema.safeParse(v)], giving [items]. *)
Definition CommentActionsResponseSchema (v : value) : option (list CommentAction) :=
  match v with
  | VObj fields =>
      if included_ok fields then CommentActionArraySchema (assoc "items" fields)
      else None
  | _ => None
  end.

(** [CommentActionResponseSchema.safeParse(v)], giving [item]. *)
Definition CommentActionResponseSchema (v : value) : option CommentAction :=
  match v with
  | VObj fields =>
      if included_ok fields then CommentActionSchema (assoc "item" fields)
      else None
  | _ => None
  end.

(** [comments.find((c) => c.id === id)] *)
Fixpoint find_comment (id : string) (comments : list CommentAction) : option CommentAction :=
  match comments with
  | [] => None
  | c :: rest => if String.eqb (ca_id c) id then Some c else find_comment id rest
  end.

(** [taskLists.find((tl) => tl.id === id)]: the first element whose [id] is
    the string [id], [undefined] when there is none; reading [id] of a
    [null] element throws. *)
Fixpoint find_task_list (id : string) (taskLists : list value) : outcome value :=
  match taskLists with
  | [] => Returned VUndefined
  | tl :: rest =>
      match get_prop tl "id" with
      | Thrown e => Thrown e
      | Returned (VStr s) => if String.eqb s id then Returned tl else find_task_list id rest
      | Returned _ => find_task_list id rest
      end
  end.

(** [cardId || taskCardIdMap[id]] on strings that may be absent: the first
    that is present and not empty. *)
Definition str_truthy (o : option string) : bool :=
  match o with
  | Some s => negb (String.eqb s "")
  | None => false
  end.

Definition str_or (a b : option string) : option string :=
  if str_truthy a then a else b.

(** The members that every plain object inherits from [Object.prototype],
    by name, with what a template literal prints for each: the functions
    print as native code, and [__proto__] is the prototype object itself.
    All of them are truthy. *)
Definition prototype_member (key : string) : option string :=
  if String.eqb key "constructor" then Some "function Object() { [native code] }"
  else if String.eqb key "__proto__" then Some "[object Object]"
  else if existsb (String.eqb key)
            ["__defineGetter__"; "__defineSetter__"; "hasOwnProperty";
             "__lookupGetter__"; "__lookupSetter__"; "isPrototypeOf";
             "propertyIsEnumerable"; "toString"; "valueOf"; "toLocaleString"]
       then Some ("function " +:+ key +:+ "() { [native code] }")
  else None.

(** [taskCardIdMap[id]] on the object [m]: the card recorded for [id], or
    else the member of that name that the object inherits, as it prints. *)
Definition card_lookup (m : gmap string string) (id : string) : option string :=
  match m !! id with
  | Some cardId => Some cardId
  | None => prototype_member id
  end.

(** [!task.position] *)
Definition no_position (position : option Z) : bool :=
  negb (truthy (match position with Some n => VNum n | None => VUndefined end)).

(** ** Reading a call *)

(** What a create call hands back: [response.item] of what the gateway
    answered, or the failure. *)
Definition call_item (c : Call) : outcome value :=
  match call_response c with
  | Returned response => get_prop response "item"
  | Thrown e => Thrown e
  end.

(** The entry of [results] that a call of [createTask] accounts for. *)
Definition result_of_call (c : Call) : TaskResult :=
  match call_item c with
  | Returned item => ResultSuccess item
  | Thrown e => ResultFailure ("Failed to create task list: " +:+ error_message e)
  end.

Definition result_success (r : TaskResult) : option value :=
  match r with
  | ResultSuccess result => Some result
  | ResultFailure _ => None
  end.

(** The failure records of the inputs [tasks], numbered from [i], whose
    entries of [results] are [rs]. *)
Fixpoint failure_records (i : nat) (tasks : list ref) (rs : list TaskResult) : list TaskError :=
  match tasks, rs with
  | r :: tasks', ResultFailure message :: rs' =>
      mkTaskError i r message :: failure_records (S i) tasks' rs'
  | _ :: tasks', ResultSuccess _ :: rs' => failure_records (S i) tasks' rs'
  | _, _ => []
  end.

(** The pair that a gateway call adds to [taskCardIdMap]: a call that
    creates a task list on [cardId] and is answered with an [item] that has
    a truthy [id]. *)
Definition recorded (c : Call) : option (string * string) :=
  match call_endpoint c, call_method c, call_item c with
  | CardTaskLists cardId, POST, Returned item =>
      if truthy item then
        match get_prop item "id" with
        | Returned id => if truthy id then Some (js_String id, cardId) else None
        | Thrown _ => None
        end
      else None
  | _, _, _ => None
  end.

(** The map after a call: the pair of the call, if it records one,
    overwrites the entry of its id. *)
Definition map_step (m : gmap string string) (c : Call) : gmap string string :=
  match recorded c with
  | Some (id, cardId) => <[id := cardId]> m
  | None => m
  end.


(** The card that [getTask] reads: the [cardId] argument when it is a
    non-empty string, else the entry of the map when that is one. *)
Definition effective_card_id (cardId mapped : option string) : option string :=
  match cardId with
  | Some c => if decide (c = "") then
                match mapped with
                | Some m => if decide (m = "") then None else Some m
                | None => None
                end
              else Some c
  | None => match mapped with
            | Some m => if decide (m = "") then None else Some m
            | None => None
            end
  end.

(** ** State, and the monad of the operations *)

Section Operations.
Context `{C : Collaborators}.

(** [remote] is the board service; [trace] lists the gateway calls made so
    far, oldest first; [taskCardIdMap] is the module-level map of the
    source; [heap] holds the caller's task objects. *)
Record State : Type := mkState {
  remote : World;
  trace : list Call;
  taskCardIdMap : gmap string string;
  heap : gmap ref CreateTaskOptions
}.

(** [const taskCardIdMap = {}] when the module is loaded. *)
Definition initial (w : World) (h : gmap ref CreateTaskOptions) : State :=
  mkState w [] ∅ h.

Definition M (A : Type) : Type := State -> State * outcome A.

Definition ret {A} (a : A) : M A := fun s => (s, Returned a).

Definition throw {A} (e : exn) : M A := fun s => (s, Thrown e).

Definition lift {A} (o : outcome A) : M A := fun s => (s, o).

Definition bind {A B} (m : M A) (k : A -> M B) : M B :=
  fun s =>
    match m s with
    | (s', Returned a) => k a s'
    | (s', Thrown e) => (s', Thrown e)
    end.

(** [try { m } catch (error) { handler }]: what [m] did to the state before
    it threw stays done. *)
Definition try_catch {A} (m : M A) (handler : exn -> M A) : M A :=
  fun s =>
    match m s with
    | (s', Returned a) => (s', Returned a)
    | (s', Thrown e) => handler e s'
    end.

Local Notation "x <- m ;; k" := (bind m (fun x => k))
  (at level 100, m at next level, right associativity).
Local Notation "m ;; k" := (bind m (fun _ => k))
  (at level 100, right associativity).

(** [await plankaRequest(path, options)] *)
Definition plankaRequest (e : Endpoint) (options : option RequestOptions) : M value :=
  fun s =>
    let '(w, r) := gateway (path e) options (remote s) in
    (mkState w (trace s ++ [mkCall e options r]) (taskCardIdMap s) (heap s), r).

(** [schema.parse(v)] *)
Definition zparse {A} (schema : string) (safeParse : value -> option A) (v : value) : M A :=
  lift (match safeParse v with
        | Some a => Returned a
        | None => Thrown (JsError (zod_message schema v))
        end).

(** [TaskResponseSchema.safeParse(v)], giving [item]. *)
Definition TaskResponseSchema (v : value) : option value :=
  match v with
  | VObj fields =>
      if included_ok fields then PlankaTaskSchema (assoc "item" fields)
      else None
  | _ => None
  end.

(** [taskCardIdMap[key] = cardId] *)
Definition record_card (key cardId : string) : M unit :=
  fun s =>
    (mkState (remote s) (trace s) (<[key := cardId]> (taskCardIdMap s)) (heap s),
     Returned tt).

(** [taskCardIdMap[id]] *)
Definition lookup_card (id : string) : M (option string) :=
  fun s => (s, Returned (card_lookup (taskCardIdMap s) id)).

(** [options.tasks[i]], read for its [position]: an element that is no
    object makes the read throw. *)
Definition read_task (r : ref) : M CreateTaskOptions :=
  fun s =>
    match heap s !! r with
    | Some task => (s, Returned task)
    | None => (s, Thrown (type_error VUndefined "position"))
    end.

(** [task.position = position] *)
Definition write_position (r : ref) (position : Z) : M unit :=
  fun s =>
    (mkState (remote s) (trace s) (taskCardIdMap s)
       (alter (fun task => mkCreateTask (ct_cardId task) (ct_name task) (Some position))
              r (heap s)),
     Returned tt).

(** ** Task lists *)

Definition create_task_request (name : string) (position : Z) : RequestOptions :=
  mkOptions POST (Some (VObj [("name", VStr name); ("position", VNum position)])).

Definition createTask (params : CreateTaskOptions) : M value :=
  try_catch
    (let cardId := ct_cardId params in
     let name := ct_name params in
     let position := default 65535 (ct_position params) in
     response <- plankaRequest (CardTaskLists cardId)
                   (Some (create_task_request name position)) ;;
     item <- lift (get_prop response "item") ;;
     (if truthy item then
        id <- lift (get_prop item "id") ;;
        if truthy id then record_card (js_String id) cardId else ret tt
      else ret tt) ;;
     lift (get_prop response "item"))
    (fun error =>
       throw (JsError ("Failed to create task list: " +:+ error_message error))).

(** One turn of the loop of [batchCreateTasks], at index [i]; [task] is
    the object [r], so that the assignment shows in what [createTask] and
    the failure record see. *)
Definition batch_step (i : nat) (r : ref) (acc : BatchResult) : M BatchResult :=
  task <- read_task r ;;
  task <- (if no_position (ct_position task)
           then
             let position := 65535 * (Z.of_nat i + 1) in
             write_position r position ;;
             ret (mkCreateTask (ct_cardId task) (ct_name task) (Some position))
           else ret task) ;;
  try_catch
    (result <- createTask task ;;
     ret (mkBatch (results acc ++ [ResultSuccess result])
                  (successes acc ++ [result])
                  (failures acc)))
    (fun error =>
       let errorMessage := error_message error in
       ret (mkBatch (results acc ++ [ResultFailure errorMessage])
                    (successes acc)
                    (failures acc ++ [mkTaskError i r errorMessage]))).

Fixpoint batch_loop (i : nat) (tasks : list ref) (acc : BatchResult) : M BatchResult :=
  match tasks with
  | [] => ret acc
  | r :: rest =>
      acc' <- batch_step i r acc ;;
      batch_loop (S i) rest acc'
  end.

Definition batchCreateTasks (tasks : list ref) : M BatchResult :=
  try_catch
    (batch_loop 0 tasks (mkBatch [] [] []))
    (fun error =>
       throw (JsError ("Failed to batch create tasks: " +:+ error_message error))).

(** [response?.included?.taskLists || response?.included?.tasks] *)
Definition embedded_task_lists (response : value) : value :=
  js_or (opt_prop (opt_prop response "included") "taskLists")
        (opt_prop (opt_prop response "included") "tasks").

Definition getTasks (cardId : string) : M (list value) :=
  try_catch
    (response <- plankaRequest (Card cardId) None ;;
     match embedded_task_lists response with
     | VArr taskLists => ret taskLists
     | _ => ret []
     end)
    (fun error => ret []).

Definition missing_card_id : string :=
  "Card ID is required to get a task list. Either provide it directly or create the task list first.".

Definition getTask (id : string) (cardId : option string) : M value :=
  try_catch
    (mapped <- lookup_card id ;;
     let taskCardId := str_or cardId mapped in
     if negb (str_truthy taskCardId) then throw (JsError missing_card_id)
     else
       let taskCardId := default "" taskCardId in
       response <- plankaRequest (Card taskCardId) None ;;
       match embedded_task_lists response with
       | VArr taskLists =>
           taskList <- lift (find_task_list id taskLists) ;;
           if negb (truthy taskList) then
             throw (JsError ("Task list with ID " +:+ id +:+
                             " not found in card " +:+ taskCardId))
           else ret taskList
       | _ =>
           throw (JsError ("Failed to get task lists for card " +:+ taskCardId))
       end)
    (fun error =>
       throw (JsError ("Failed to get task list: " +:+ error_message error))).

(** The bodies of the two PATCH requests on tasks and task lists. *)
Definition task_list_patch_request (options : TaskListPatch) : RequestOptions :=
  mkOptions PATCH
    (Some (obj [("name", VStr <$> tlp_name options);
                ("position", VNum <$> tlp_position options)])).

Definition task_patch_request (options : TaskPatch) : RequestOptions :=
  mkOptions PATCH
    (Some (obj [("name", VStr <$> tp_name options);
                ("position", VNum <$> tp_position options);
                ("isCompleted", VBool <$> tp_isCompleted options)])).

Definition updateTask (id : string) (options : TaskListPatch) : M value :=
  response <- plankaRequest (TaskList id) (Some (task_list_patch_request options)) ;;
  zparse "TaskResponseSchema" TaskResponseSchema response.

Definition deleteTask (id : string) : M Ack :=
  plankaRequest (TaskList id) (Some (mkOptions DELETE None)) ;;
  ret (mkAck true).

(** ** Tasks inside a task list *)

Definition create_item_request (name : string) (position : Z) (isCompleted : bool) : RequestOptions :=
  mkOptions POST
    (Some (VObj [("name", VStr name); ("position", VNum position);
                 ("isCompleted", VBool isCompleted)])).

Definition createTaskInTaskList (params : CreateTaskInTaskListParams) : M value :=
  try_catch
    (let taskListId := ci_taskListId params in
     let name := ci_name params in
     let position := default 65535 (ci_position params) in
     let isCompleted := default false (ci_isCompleted params) in
     response <- plankaRequest (TaskListTasks (js_String taskListId))
                   (Some (create_item_request name position isCompleted)) ;;
     lift (get_prop response "item"))
    (fun error =>
       throw (JsError ("Failed to create task in task list: " +:+ error_message error))).

Definition updateTaskInTaskList (id : string) (options : TaskPatch) : M value :=
  response <- plankaRequest (Task id) (Some (task_patch_request options)) ;;
  lift (get_prop response "item").

Definition deleteTaskInTaskList (id : string) : M Ack :=
  plankaRequest (Task id) (Some (mkOptions DELETE None)) ;;
  ret (mkAck true).

(** The parameters that [createTaskListWithTasks] builds for the task at
    index [i]: [isCompleted] is [task.isCompleted || false]. *)
Definition item_params (taskListId : value) (i : nat) (task : TaskSpec) : CreateTaskInTaskListParams :=
  mkCreateItem taskListId (ts_name task)
    (Some (65535 * (Z.of_nat i + 1)))
    (Some (default false (ts_isCompleted task) || false)%bool).

(** The loop of [createTaskListWithTasks], from index [i]. *)
Fixpoint create_items (taskList : value) (i : nat) (tasks : list TaskSpec)
    (createdTasks : list value) : M (list value) :=
  match tasks with
  | [] => ret createdTasks
  | task :: rest =>
      taskListId <- lift (get_prop taskList "id") ;;
      createdTask <- createTaskInTaskList (item_params taskListId i task) ;;
      create_items taskList (S i) rest (createdTasks ++ [createdTask])
  end.

Definition createTaskListWithTasks (cardId name : string) (tasks : list TaskSpec) : M TaskListWithTasks :=
  try_catch
    (taskList <- createTask (mkCreateTask cardId name None) ;;
     createdTasks <- create_items taskList 0 tasks [] ;;
     ret (mkTaskListWithTasks taskList createdTasks))
    (fun error =>
       throw (JsError ("Failed to create task list with tasks: " +:+ error_message error))).

(** ** Comments *)

Definition createComment (cardId text : string) : M CommentAction :=
  try_catch
    (response <- plankaRequest (CardComments cardId)
                   (Some (mkOptions POST (Some (VObj [("text", VStr text)])))) ;;
     zparse "CommentActionResponseSchema" CommentActionResponseSchema response)
    (fun error =>
       throw (JsError ("Failed to create comment: " +:+ error_message error))).

Definition getComments (cardId : string) : M (list CommentAction) :=
  try_catch
    (response <- plankaRequest (CardComments cardId) None ;;
     try_catch
       (zparse "CommentActionsResponseSchema" CommentActionsResponseSchema response)
       (fun parseError =>
          if isArray response then
            zparse "CommentActionArraySchema" CommentActionArraySchema response
          else
            throw (JsError ("Could not parse comments response: " +:+
                            JSON_stringify response))))
    (fun error => ret []).

Definition getComment (id cardId : string) : M CommentAction :=
  try_catch
    (comments <- getComments cardId ;;
     match find_comment id comments with
     | Some comment => ret comment
     | None =>
         throw (JsError ("Comment with ID " +:+ id +:+ " not found in card " +:+ cardId))
     end)
    (fun error =>
       throw (JsError ("Failed to get comment: " +:+ error_message error))).

(** [options.text] is optional in the declared type of [updateComment]. *)
Definition updateComment (id : string) (text : option string) : M CommentAction :=
  try_catch
    (response <- plankaRequest (Comment id)
                   (Some (mkOptions PATCH (Some (obj [("text", VStr <$> text)])))) ;;
     zparse "CommentActionResponseSchema" CommentActionResponseSchema response)
    (fun error =>
       throw (JsError ("Failed to update comment: " +:+ error_message error))).

Definition deleteComment (id : string) : M Ack :=
  try_catch
    (plankaRequest (Comment id) (Some (mkOptions DELETE None)) ;;
     ret (mkAck true))
    (fun error =>
       throw (JsError ("Failed to delete comment: " +:+ error_message error))).

(** ** A caller

    Any of the exported operations, with its arguments; a caller runs them
    one after the other on the same module state. *)

Inductive Op : Type :=
| OpCreateTask (params : CreateTaskOptions)
| OpBatchCreateTasks (tasks : list ref)
| OpGetTasks (cardId : string)
| OpGetTask (id : string) (cardId : option string)
| OpUpdateTask (id : string) (options : TaskListPatch)
| OpDeleteTask (id : string)
| OpCreateTaskInTaskList (params : CreateTaskInTaskListParams)
| OpUpdateTaskInTaskList (id : string) (options : TaskPatch)
| OpDeleteTaskInTaskList (id : string)
| OpCreateTaskListWithTasks (cardId name : string) (tasks : list TaskSpec)
| OpCreateComment (cardId text : string)
| OpGetComments (cardId : string)
| OpGetComment (id cardId : string)
| OpUpdateComment (id : string) (text : option string)
| OpDeleteComment (id : string).

(** The state an operation leaves, whether it returned or threw. *)
Definition run_op (op : Op) (s : State) : State :=
  match op with
  | OpCreateTask params => (createTask params s).1
  | OpBatchCreateTasks tasks => (batchCreateTasks tasks s).1
  | OpGetTasks cardId => (getTasks cardId s).1
  | OpGetTask id cardId => (getTask id cardId s).1
  | OpUpdateTask id options => (updateTask id options s).1
  | OpDeleteTask id => (deleteTask id s).1
  | OpCreateTaskInTaskList params => (createTaskInTaskList params s).1
  | OpUpdateTaskInTaskList id options => (updateTaskInTaskList id options s).1
  | OpDeleteTaskInTaskList id => (deleteTaskInTaskList id s).1
  | OpCreateTaskListWithTasks cardId name tasks =>
      (createTaskListWithTasks cardId name tasks s).1
  | OpCreateComment cardId text => (createComment cardId text s).1
  | OpGetComments cardId => (getComments cardId s).1
  | OpGetComment id cardId => (getComment id cardId s).1
  | OpUpdateComment id text => (updateComment id text s).1
  | OpDeleteComment id => (deleteComment id s).1
  end.



(** ** Reading a trace *)

(** The remote world after the service has answered the calls [calls]. *)
Definition replay (calls : list Call) (w : World) : World :=
  foldl (fun w c => (gateway (path (call_endpoint c)) (call_options c) w).1) w calls.

(** The state after one more gateway call. *)
Definition after_call (s : State) (c : Call) : State :=
  mkState (gateway (path (call_endpoint c)) (call_options c) (remote s)).1
          (trace s ++ [c])
          (map_step (taskCardIdMap s) c)
          (heap s).

(** The call that the gateway answers in [s] to a request. *)
Definition answered (s : State) (ep : Endpoint) (options : option RequestOptions) : Call :=
  mkCall ep options (gateway (path ep) options (remote s)).2.

(** What a wrapping [catch] clause makes of an outcome. *)
Definition wrapped {A} (prefix : string) (o : outcome A) : outcome A :=
  match o with
  | Returned a => Returned a
  | Thrown e => Thrown (JsError (prefix +:+ error_message e))
  end.

(** The call that [createTask params] makes in [s]. *)
Definition create_call (s : State) (params : CreateTaskOptions) : Call :=
  answered s (CardTaskLists (ct_cardId params))
    (Some (create_task_request (ct_name params)
             (default 65535 (ct_position params)))).

(** The task that [batchCreateTasks] passes on at index [i]. *)
Definition batch_task (i : nat) (task : CreateTaskOptions) : CreateTaskOptions :=
  if no_position (ct_position task)
  then mkCreateTask (ct_cardId task) (ct_name task) (Some (65535 * (Z.of_nat i + 1)))
  else task.

(** The accumulators of [batchCreateTasks] after one more entry. *)
Definition push_result (i : nat) (r : ref) (acc : BatchResult) (entry : TaskResult) : BatchResult :=
  match entry with
  | ResultSuccess result =>
      mkBatch (results acc ++ [entry]) (successes acc ++ [result]) (failures acc)
  | ResultFailure message =>
      mkBatch (results acc ++ [entry]) (successes acc)
              (failures acc ++ [mkTaskError i r message])
  end.

(** The task objects keep their card and name. *)
Definition same_cards (h h' : gmap ref CreateTaskOptions) : Prop :=
  forall r, (fun task => (ct_cardId task, ct_name task)) <$> h' !! r
            = (fun task => (ct_cardId task, ct_name task)) <$> h !! r.

(** The call that [createTaskInTaskList params] makes in [s]. *)
Definition item_call (s : State) (params : CreateTaskInTaskListParams) : Call :=
  answered s (TaskListTasks (js_String (ci_taskListId params)))
    (Some (create_item_request (ci_name params)
             (default 65535 (ci_position params))
             (default false (ci_isCompleted params)))).

(** The request that creates the input [task] as the item at index [i] of
    the task list whose [id] is [taskListId]. *)
Definition is_item_request (taskListId : value) (i : nat) (task : TaskSpec) (c : Call) : Prop :=
  call_endpoint c = TaskListTasks (js_String taskListId) /\
  call_options c =
    Some (create_item_request (ts_name task) (65535 * (Z.of_nat i + 1))
            (default false (ts_isCompleted task))).

(** What [getTask] makes of the answer to its card read. *)
Definition found_in_card (id taskCardId : string) (response : outcome value) : outcome value :=
  wrapped "Failed to get task list: "
    match response with
    | Thrown e => Thrown e
    | Returned response =>
        match embedded_task_lists response with
        | VArr taskLists =>
            match find_task_list id taskLists with
            | Thrown e => Thrown e
            | Returned taskList =>
                if truthy taskList then Returned taskList
                else Thrown (JsError ("Task list with ID " +:+ id +:+
                                      " not found in card " +:+ taskCardId))
            end
        | _ => Thrown (JsError ("Failed to get task lists for card " +:+ taskCardId))
        end
    end.

(** An element of a card's collection whose [id] can be read and is not
    the string [id]. *)
Definition other_id (id : string) (tl : value) : Prop :=
  exists v, get_prop tl "id" = Returned v /\ v <> VStr id.

(** The comments that [getComments] makes of an answer: the candidate
    shapes tried in turn, first match wins, nothing when none matches or
    the read failed. *)
Definition normalized (answer : outcome value) : list CommentAction :=
  match answer with
  | Thrown _ => []
  | Returned response =>
      match CommentActionsResponseSchema response with
      | Some comments => comments
      | None => default [] (CommentActionArraySchema response)
      end
  end.





(** An operation that returns nothing but what [safeParse] validated in
    the answer to the request. *)
Definition returns_validated {A} (safeParse : value -> option A) (ep : Endpoint)
    (options : option RequestOptions) (m : M A) : Prop :=
  forall s a,
    (m s).2 = Returned a ->
    exists response,
      call_response (answered s ep options) = Returned response /\
      safeParse response = Some a.


(** The position that [batchCreateTasks] sends for the input at index [i]
    whose position is [position]: an explicit position other than zero, or
    [65535 * (i + 1)]. *)
Definition assigned_position (i : nat) (position : option Z) : Z :=
  match position with
  | Some n => if decide (n = 0) then 65535 * (Z.of_nat i + 1) else n
  | None => 65535 * (Z.of_nat i + 1)
  end.

End Operations.

(** ** A scripted service

    A double of the collaborators for the examples: the world is the list
    of answers still to give, whatever is asked; asked once more, the
    service fails. Its task schema wants an object with string [id] and
    [name]. *)

Definition scripted_gateway (_ : string) (_ : option RequestOptions)
    (w : list (outcome value)) : list (outcome value) * outcome value :=
  match w with
  | [] => ([], Thrown (JsError "connection refused"))
  | answer :: w' => (w', answer)
  end.

Definition scripted : Collaborators := {|
  World := list (outcome value);
  gateway := scripted_gateway;
  PlankaTaskSchema := fun v =>
    match opt_prop v "id", opt_prop v "name" with
    | VStr _, VStr _ => Some v
    | _, _ => None
    end;
  zod_message := fun schema _ => "Invalid input for " +:+ schema;
  JSON_stringify := fun _ => "{}"
|}.

(** A task list entity, as the service answers. *)
Definition entity (id name : string) : value :=
  VObj [("id", VStr id); ("name", VStr name)].

(** [{ item: v }] *)
Definition enveloped (v : value) : value := VObj [("item", v)].

(** ** Scenarios *)

(** Three task objects without positions, [A] and [B] for card [c1] and
    [C] for card [c2]; the service creates [A] and [C] and fails on [B]. *)
Definition objects_ABC : gmap ref CreateTaskOptions :=
  {[ 0%nat := mkCreateTask "c1" "A" None;
     1%nat := mkCreateTask "c1" "B" None;
     2%nat := mkCreateTask "c2" "C" None ]}.

Definition state_ABC : @State scripted :=
  @initial scripted
    [Returned (enveloped (entity "t1" "A"));
     Thrown (JsError "boom");
     Returned (enveloped (entity "t3" "C"))]
    objects_ABC.

(** One task object with the explicit position 0. *)
Definition state_zero : @State scripted :=
  @initial scripted
    [Returned (enveloped (entity "t1" "A"))]
    {[ 0%nat := mkCreateTask "c1" "A" (Some 0) ]}.

Definition three_items : list TaskSpec :=
  [mkTaskSpec "one" None; mkTaskSpec "two" (Some true); mkTaskSpec "three" None].

(** The service creates the task list and the first item, then fails. *)
Definition state_second_item_fails : @State scripted :=
  @initial scripted
    [Returned (enveloped (entity "tl1" "L"));
     Returned (enveloped (entity "i1" "one"));
     Thrown (JsError "boom")]
    ∅.

(** The service creates the task list and the three items. *)
Definition state_items_created : @State scripted :=
  @initial scripted
    [Returned (enveloped (entity "tl1" "L"));
     Returned (enveloped (entity "i1" "one"));
     Returned (enveloped (entity "i2" "two"));
     Returned (enveloped (entity "i3" "three"))]
    ∅.

(** A card answer that embeds the task lists [tl0] and [tl1]. *)
Definition card_answer : value :=
  VObj [("item", entity "c1" "card");
        ("included", VObj [("taskLists", VArr [entity "tl0" "K"; entity "tl1" "L"])])].

(** The module after [createTask] recorded [tl1] for card [c1]; the next
    answer of the service is the card. *)
Definition state_tl1_recorded : @State scripted :=
  (@createTask scripted (mkCreateTask "c1" "L" None)
     (@initial scripted [Returned (enveloped (entity "tl1" "L")); Returned card_answer] ∅)).1.

Definition comment_answer : value :=
  VObj [("id", VStr "m1"); ("type", VStr "commentCard");
        ("data", VObj [("text", VStr "hello")]);
        ("cardId", VStr "c1"); ("userId", VStr "u1");
        ("createdAt", VStr "2026-01-30"); ("updatedAt", VNull)].

Definition comment_m1 : CommentAction :=
  mkComment "m1" "commentCard" "hello" "c1" "u1" "2026-01-30" None.

(** The service answers the comments of a card in the enveloped shape. *)
Definition state_comments : @State scripted :=
  @initial scripted [Returned (VObj [("items", VArr [comment_answer])])] ∅.

(** The service fails on the first call with the given message. *)
Definition state_failing (message : string) : @State scripted :=
  @initial scripted [Thrown (JsError message)] ∅.



(** ** Footprints

    Which requests an operation may send: the verb, the endpoints and the
    number of calls, as the request table at the head of the source has
    them. *)

Section Footprints.
Context `{C : Collaborators}.

(** The HTTP method of the requests of an operation. *)
Definition verb (op : Op) : Method :=
  match op with
  | OpCreateTask _ | OpBatchCreateTasks _ | OpCreateTaskInTaskList _
  | OpCreateTaskListWithTasks _ _ _ | OpCreateComment _ _ => POST
  | OpGetTasks _ | OpGetTask _ _ | OpGetComments _ | OpGetComment _ _ => GET
  | OpUpdateTask _ _ | OpUpdateTaskInTaskList _ _ | OpUpdateComment _ _ => PATCH
  | OpDeleteTask _ | OpDeleteTaskInTaskList _ | OpDeleteComment _ => DELETE
  end.

(** The endpoints that an operation addresses. *)
Definition on_endpoint (op : Op) (ep : Endpoint) : Prop :=
  match op with
  | OpCreateTask params => ep = CardTaskLists (ct_cardId params)
  | OpBatchCreateTasks _ => exists cardId, ep = CardTaskLists cardId
  | OpGetTasks cardId => ep = Card cardId
  | OpGetTask _ _ => exists cardId, ep = Card cardId
  | OpUpdateTask id _ | OpDeleteTask id => ep = TaskList id
  | OpCreateTaskInTaskList params =>
      ep = TaskListTasks (js_String (ci_taskListId params))
  | OpUpdateTaskInTaskList id _ | OpDeleteTaskInTaskList id => ep = Task id
  | OpCreateTaskListWithTasks cardId _ _ =>
      ep = CardTaskLists cardId \/ exists taskListId, ep = TaskListTasks taskListId
  | OpCreateComment cardId _ | OpGetComments cardId | OpGetComment _ cardId =>
      ep = CardComments cardId
  | OpUpdateComment id _ | OpDeleteComment id => ep = Comment id
  end.

(** The most and the fewest calls of an operation. *)
Definition max_calls (op : Op) : nat :=
  match op with
  | OpBatchCreateTasks tasks => length tasks
  | OpCreateTaskListWithTasks _ _ tasks => S (length tasks)
  | _ => 1
  end.

Definition min_calls (op : Op) : nat :=
  match op with
  | OpBatchCreateTasks _ | OpGetTask _ _ => 0
  | _ => 1
  end.

(** A computation that leaves the state as it is. *)
Definition pure_op {A} (m : M A) : Prop := forall s, (m s).1 = s.

(** An operation whose whole effect on the state is the one call on [ep]
    with [options]. *)
Definition one_call {A} (ep : Endpoint) (options : option RequestOptions)
    (m : M A) : Prop :=
  forall s, (m s).1 = after_call s (answered s ep options).

End Footprints.

(** [v == null]: the values whose properties cannot be read. *)
Definition nullish (v : value) : bool :=
  match v with
  | VUndefined | VNull => true
  | _ => false
  end.

(** The value [v] has the properties of the comment [c]: the strings
    [id], [cardId], [userId] and [createdAt], the type [commentCard], the
    text under [data], and [updatedAt] as a string or [null]. *)
Definition represents (v : value) (c : CommentAction) : Prop :=
  opt_prop v "id" = VStr (ca_id c) /\
  opt_prop v "type" = VStr "commentCard" /\
  ca_type c = "commentCard" /\
  opt_prop (opt_prop v "data") "text" = VStr (ca_text c) /\
  opt_prop v "cardId" = VStr (ca_cardId c) /\
  opt_prop v "userId" = VStr (ca_userId c) /\
  opt_prop v "createdAt" = VStr (ca_createdAt c) /\
  opt_prop v "updatedAt" = match ca_updatedAt c with
                           | Some updatedAt => VStr updatedAt
                           | None => VNull
                           end.

(** The elements that an answer to the comments read carries: the answer
    itself when it is a sequence, else its [items]. *)
Definition answer_items (response : value) : list value :=
  match response with
  | VArr items => items
  | _ => match opt_prop response "items" with
         | VArr items => items
         | _ => []
         end
  end.

(** ** Further scenarios *)

(** The service answers with an object that has no [item]. *)
Definition state_no_item : @State scripted :=
  @initial scripted [Returned (VObj [("included", VObj [])])] ∅.


(** A card answer whose collection holds [null] before the task list. *)
Definition card_answer_with_null : value :=
  VObj [("item", entity "c1" "card");
        ("included", VObj [("taskLists", VArr [VNull; entity "tl1" "L"])])].

Definition state_card_with_null : @State scripted :=
  @initial scripted [Returned card_answer_with_null] ∅.

(** The service answers a comment creation with the comment [m1]. *)
Definition state_comment_created : @State scripted :=
  @initial scripted [Returned (enveloped comment_answer)] ∅.

(** The comments of a card, one of them without the fields of a comment. *)
Definition state_one_bad_comment : @State scripted :=
  @initial scripted [Returned (VArr [comment_answer; VObj [("id", VStr "m2")]])] ∅.

(** A card answer whose [taskLists] is a string and whose [tasks] is a
    sequence. *)
Definition card_answer_odd_taskLists : value :=
  VObj [("item", entity "c1" "card");
        ("included", VObj [("taskLists", VStr "none");
                           ("tasks", VArr [entity "tl9" "Z"])])].

(** The module as loaded, with a service that answers nothing. *)
Definition state_loaded : @State scripted := @initial scripted [] ∅.

(** * Properties *)

Section Properties.
Context `{C : Collaborators}.

Implicit Types (s : State) (calls : list Call) (e : exn).

Lemma plankaRequest_run ep options s :
  recorded (answered s ep options) = None ->
  plankaRequest ep options s =
    (after_call s (answered s ep options), call_response (answered s ep options)).
Proof.
  intros Hrec. unfold plankaRequest, after_call, map_step, answered in *.
  rewrite Hrec. simpl. by destruct (gateway _ _ _).
Qed.

(** [createTask] makes exactly one call, records what the call accounts
    for, and hands back its item or the wrapped failure. *)
Lemma createTask_run params s :
  createTask params s =
    (after_call s (create_call s params),
     wrapped "Failed to create task list: " (call_item (create_call s params))).
Proof.
  unfold create_call, createTask, try_catch, bind, plankaRequest, after_call,
    map_step, answered, recorded, call_item, call_method, lift, throw, ret, record_card; simpl.
  destruct (gateway _ _ _) as [w [response|e]]; simpl; [|done].
  destruct response as [| |b|n|str|items|fields]; simpl; try done.
  destruct (assoc "item" fields) as [| |b|n|str|items|ifields] eqn:Hitem;
    simpl; try done.
  - by destruct b.
  - by destruct (n =? 0).
  - by destruct (String.eqb str "").
  - by destruct (truthy (assoc "id" ifields)).
Qed.

Lemma result_of_call_wrapped c :
  result_of_call c =
    match wrapped "Failed to create task list: " (call_item c) with
    | Returned item => ResultSuccess item
    | Thrown e => ResultFailure (error_message e)
    end.
Proof. unfold result_of_call. by destruct (call_item c). Qed.

(** One turn of the batch loop on an object of the store: the position is
    written when it is missing or zero, one call is made, and the entry of
    that call is pushed; the turn never throws. *)
Lemma batch_step_run i r acc s task :
  heap s !! r = Some task ->
  exists s1,
    remote s1 = remote s /\ trace s1 = trace s /\
    taskCardIdMap s1 = taskCardIdMap s /\
    heap s1 = (if no_position (ct_position task)
               then <[r := batch_task i task]> (heap s) else heap s) /\
    batch_step i r acc s =
      (after_call s1 (create_call s (batch_task i task)),
       Returned (push_result i r acc
                   (result_of_call (create_call s (batch_task i task))))).
Proof.
  intros Hr. unfold batch_step, bind, read_task. rewrite Hr.
  unfold batch_task. destruct (no_position (ct_position task)) eqn:Hpos.
  - assert (Halter : forall p,
      alter (fun t => mkCreateTask (ct_cardId t) (ct_name t) (Some p)) r (heap s)
      = <[r := mkCreateTask (ct_cardId task) (ct_name task) (Some p)]> (heap s)).
    { intros p. apply map_eq. intros r'. rewrite lookup_alter, lookup_insert.
      destruct (decide (r = r')) as [<-|]; [by rewrite Hr|done]. }
    eexists (mkState (remote s) (trace s) (taskCardIdMap s) _).
    simpl. split_and!; try reflexivity.
    unfold write_position, ret, try_catch, bind. simpl.
    rewrite createTask_run, result_of_call_wrapped, Halter.
    unfold create_call, answered. simpl.
    by destruct (wrapped _ _).
  - exists s. split_and!; try reflexivity.
    unfold ret, try_catch, bind. simpl.
    rewrite createTask_run, result_of_call_wrapped.
    by destruct (wrapped _ _).
Qed.

Lemma same_cards_refl h : same_cards h h.
Proof. done. Qed.

Lemma same_cards_trans h1 h2 h3 :
  same_cards h1 h2 -> same_cards h2 h3 -> same_cards h1 h3.
Proof. intros H12 H23 r. by rewrite H23, H12. Qed.

Lemma same_cards_batch_task i r task h :
  h !! r = Some task -> same_cards h (<[r := batch_task i task]> h).
Proof.
  intros Hr r'. rewrite lookup_insert.
  destruct (decide (r = r')) as [<-|]; [|done].
  rewrite Hr. unfold batch_task. by destruct (no_position _).
Qed.

Lemma same_cards_is_Some h h' r :
  same_cards h h' -> is_Some (h !! r) -> is_Some (h' !! r).
Proof.
  intros Hsame [task Hr]. specialize (Hsame r). rewrite Hr in Hsame.
  destruct (h' !! r); [by eexists|done].
Qed.

(** The whole loop, from index [i] with accumulators [acc], on objects of
    the store: it returns; it makes one call per input, in input order, on
    the card and with the name of that input; and it extends the three
    accumulators by what these calls account for. *)
Lemma batch_loop_run tasks : forall i acc s,
  Forall (fun r => is_Some (heap s !! r)) tasks ->
  exists calls s',
    batch_loop i tasks acc s =
      (s', Returned
             (mkBatch
                (results acc ++ map result_of_call calls)
                (successes acc ++ omap result_success (map result_of_call calls))
                (failures acc ++ failure_records i tasks (map result_of_call calls)))) /\
    trace s' = trace s ++ calls /\
    length calls = length tasks /\
    same_cards (heap s) (heap s') /\
    (forall j r task,
        tasks !! j = Some r -> heap s !! r = Some task ->
        exists c position,
          calls !! j = Some c /\
          call_endpoint c = CardTaskLists (ct_cardId task) /\
          call_options c =
            Some (create_task_request (ct_name task) position)).
Proof.
  induction tasks as [|r tasks IH]; intros i acc s Hheap.
  - exists [], s. simpl. rewrite !app_nil_r. destruct acc.
    by split_and!.
  - apply Forall_cons in Hheap as [[task Hr] Hrest].
    destruct (batch_step_run i r acc s task Hr)
      as (s1 & Hremote & Htrace & Hmap & Hheap1 & Hstep).
    set (c := create_call s (batch_task i task)) in *.
    assert (Hsame1 : same_cards (heap s) (heap (after_call s1 c))).
    { simpl. rewrite Hheap1. destruct (no_position _); [|apply same_cards_refl].
      by apply same_cards_batch_task. }
    destruct (IH (S i) (push_result i r acc (result_of_call c)) (after_call s1 c))
      as (calls & s' & Hloop & Htrace' & Hlen & Hsame & Hcalls).
    { eapply Forall_impl; [exact Hrest|]. intros r'. by apply same_cards_is_Some. }
    exists (c :: calls), s'. split_and!.
    + simpl. unfold bind. rewrite Hstep, Hloop. do 2 f_equal.
      destruct (result_of_call c); simpl; by rewrite <- !app_assoc.
    + rewrite Htrace'. simpl. rewrite Htrace. by rewrite <- app_assoc.
    + simpl. by rewrite Hlen.
    + by eapply same_cards_trans.
    + intros [|j] r' task' Hj Hr'; simpl in Hj.
      * injection Hj as <-. rewrite Hr in Hr'. injection Hr' as <-.
        exists c, (default 65535 (ct_position (batch_task i task))).
        split; [done|]. unfold c, create_call, answered, batch_task. simpl.
        by destruct (no_position _).
      * pose proof (Hsame1 r') as Hr1. rewrite Hr' in Hr1.
        destruct (heap (after_call s1 c) !! r') as [task1|] eqn:Hr1'; [|done].
        destruct (Hcalls j r' task1 Hj Hr1') as (c' & position & Hc' & Hep & Hopt).
        simpl in Hr1. injection Hr1 as Hcard Hname.
        exists c', position. rewrite Hcard, Hname in *. by split_and!.
Qed.

(** A failure record stands for an input whose entry is a failure, with the
    index of the input, the input and the message of the entry. *)
Lemma elem_of_failure_records tasks : forall i rs f,
  f ∈ failure_records i tasks rs <->
  exists j, te_index f = (i + j)%nat /\ tasks !! j = Some (te_task f) /\
            rs !! j = Some (ResultFailure (te_error f)).
Proof.
  induction tasks as [|r tasks IH]; intros i rs f.
  - simpl. split; [by intros ?%elem_of_nil|by intros (j & _ & ? & _)].
  - destruct rs as [|[result|message] rs]; simpl.
    + split; [by intros ?%elem_of_nil|by intros (j & _ & _ & ?)].
    + rewrite IH. split.
      * intros (j & Hi & Hj & Hrs). exists (S j). split_and!; [lia|done..].
      * intros ([|j] & Hi & Hj & Hrs); [done|].
        exists j. split_and!; [lia|done..].
    + rewrite elem_of_cons, IH. split.
      * intros [->|(j & Hi & Hj & Hrs)].
        -- exists 0%nat. simpl. split_and!; [lia|done..].
        -- exists (S j). split_and!; [lia|done..].
      * intros ([|j] & Hi & Hj & Hrs); simpl in *.
        -- left. destruct f. simpl in *. f_equal; [lia|congruence..].
        -- right. exists j. split_and!; [lia|done..].
Qed.

(** C1. [batchCreateTasks] on task objects does not raise when a create
    call fails: it returns; it has made one create call per input, in input
    order, each on the card and with the name of its input; [results] holds
    one entry per input in that order, a success with the created entity or
    a failure with the message; [successes] is the subsequence of the
    created entities; [failures] holds exactly one record per failed input,
    with its index, the input and the message. It raises only when an
    element of the input is no object, which is outside the per-item
    [try]. *)
Theorem batchCreateTasks_partitions (tasks : list ref) (s : State) :
  (Forall (fun r => is_Some (heap s !! r)) tasks ->
   exists calls s' res,
     batchCreateTasks tasks s = (s', Returned res) /\
     trace s' = trace s ++ calls /\
     length calls = length tasks /\
     (forall j r task,
         tasks !! j = Some r -> heap s !! r = Some task ->
         exists c position,
           calls !! j = Some c /\
           call_endpoint c = CardTaskLists (ct_cardId task) /\
           call_options c =
             Some (create_task_request (ct_name task) position)) /\
     results res = map result_of_call calls /\
     successes res = omap result_success (results res) /\
     (forall f, f ∈ failures res <->
        exists j, te_index f = j /\ tasks !! j = Some (te_task f) /\
                  results res !! j = Some (ResultFailure (te_error f))) /\
     failures res = failure_records 0 tasks (results res)) /\
  (forall s' e,
     batchCreateTasks tasks s = (s', Thrown e) ->
     exists r, r ∈ tasks /\ heap s !! r = None).
Proof.
  assert (Hreturns : Forall (fun r => is_Some (heap s !! r)) tasks ->
    exists calls s',
      batchCreateTasks tasks s =
        (s', Returned (mkBatch (map result_of_call calls)
                         (omap result_success (map result_of_call calls))
                         (failure_records 0 tasks (map result_of_call calls)))) /\
      trace s' = trace s ++ calls /\ length calls = length tasks /\
      (forall j r task,
          tasks !! j = Some r -> heap s !! r = Some task ->
          exists c position,
            calls !! j = Some c /\
            call_endpoint c = CardTaskLists (ct_cardId task) /\
            call_options c =
              Some (create_task_request (ct_name task) position))).
  { intros Hheap.
    destruct (batch_loop_run tasks 0 (mkBatch [] [] []) s Hheap)
      as (calls & s' & Hloop & Htrace & Hlen & _ & Hcalls).
    exists calls, s'. unfold batchCreateTasks, try_catch. rewrite Hloop.
    by split_and!. }
  split.
  - intros Hheap. destruct (Hreturns Hheap) as (calls & s' & Hrun & Htrace & Hlen & Hcalls).
    eexists calls, s', _. split; [exact Hrun|]. simpl. split_and!; try done.
    intros f. rewrite elem_of_failure_records. by setoid_rewrite Nat.add_0_l.
  - intros s' e Hthrown.
    destruct (decide (Forall (fun r => is_Some (heap s !! r)) tasks)) as [Hheap|Hheap].
    + destruct (Hreturns Hheap) as (calls & s'' & Hrun & _). congruence.
    + apply not_Forall_Exists in Hheap; [|apply _].
      apply Exists_exists in Hheap as (r & Hin & Hr).
      exists r. split; [done|]. simpl in Hr.
      by apply eq_None_not_Some.
Qed.

Lemma batch_task_position i task :
  ct_position (batch_task i task) = Some (assigned_position i (ct_position task)).
Proof.
  unfold batch_task, assigned_position, no_position.
  destruct (ct_position task) as [n|] eqn:Hn; simpl; [|done].
  case_decide as Hz; [subst; done|].
  apply Z.eqb_neq in Hz. rewrite Hz. simpl. by rewrite Hn.
Qed.


(** On distinct task objects, the call for the input at index [j] carries
    the name of the input and its assigned position, and the object of the
    input is left with that position. *)
Lemma batch_loop_positions tasks : forall i acc s,
  NoDup tasks ->
  Forall (fun r => is_Some (heap s !! r)) tasks ->
  exists calls,
    trace (batch_loop i tasks acc s).1 = trace s ++ calls /\
    (forall r, r ∉ tasks -> heap (batch_loop i tasks acc s).1 !! r = heap s !! r) /\
    (forall j r task,
        tasks !! j = Some r -> heap s !! r = Some task ->
        exists c,
          calls !! j = Some c /\
          call_options c =
            Some (create_task_request (ct_name task)
                    (assigned_position (i + j) (ct_position task))) /\
          heap (batch_loop i tasks acc s).1 !! r = Some (batch_task (i + j) task)).
Proof.
  induction tasks as [|r tasks IH]; intros i acc s Hnodup Hheap.
  - exists []. simpl. rewrite app_nil_r. by split_and!.
  - apply NoDup_cons in Hnodup as [Hnotin Hnodup].
    apply Forall_cons in Hheap as [[task Hr] Hrest].
    destruct (batch_step_run i r acc s task Hr)
      as (s1 & Hremote & Htrace & Hmap & Hheap1 & Hstep).
    set (c := create_call s (batch_task i task)) in *.
    assert (Hr1 : heap s1 !! r = Some (batch_task i task)).
    { rewrite Hheap1. unfold batch_task.
      destruct (no_position _); [by rewrite lookup_insert_eq|done]. }
    assert (Hother : forall r', r' <> r -> heap s1 !! r' = heap s !! r').
    { intros r' Hne. rewrite Hheap1.
      destruct (no_position _); [by rewrite lookup_insert_ne|done]. }
    destruct (IH (S i) (push_result i r acc (result_of_call c)) (after_call s1 c))
      as (calls & Htrace' & Hframe & Hcalls); [done| |].
    { eapply Forall_impl; [exact Hrest|]. intros r' [task' Hr']. simpl.
      destruct (decide (r' = r)) as [->|Hne]; [by rewrite Hr1|].
      rewrite Hother by done. by rewrite Hr'. }
    simpl. unfold bind. rewrite Hstep.
    exists (c :: calls). split_and!.
    + rewrite Htrace'. simpl. by rewrite Htrace, <- app_assoc.
    + intros r' Hr'. apply not_elem_of_cons in Hr' as [Hne Hr'].
      rewrite Hframe by done. simpl. by apply Hother.
    + intros [|j] r' task' Hj Hr'; simpl in Hj.
      * injection Hj as <-. assert (task' = task) as -> by congruence.
        exists c. rewrite Nat.add_0_r. split_and!; [done| |].
        -- unfold c, create_call, answered. simpl.
           rewrite batch_task_position. simpl.
           unfold batch_task. by destruct (no_position _).
        -- rewrite Hframe by done. done.
      * assert (Hne : r' <> r).
        { intros ->. apply Hnotin. by eapply list_elem_of_lookup_2. }
        destruct (Hcalls j r' task' Hj) as (c' & Hc' & Hopt & Hfinal).
        { simpl. by rewrite Hother. }
        exists c'. replace (i + S j)%nat with (S i + j)%nat by lia.
        by split_and!.
Qed.


Lemma replay_app calls1 calls2 (w : World) :
  replay (calls1 ++ calls2) w = replay calls2 (replay calls1 w).
Proof. unfold replay. by rewrite foldl_app. Qed.

Lemma createTaskInTaskList_run params s :
  createTaskInTaskList params s =
    (after_call s (item_call s params),
     wrapped "Failed to create task in task list: " (call_item (item_call s params))).
Proof.
  unfold createTaskInTaskList, try_catch, bind, item_call, call_item, lift, throw.
  rewrite plankaRequest_run by done. simpl.
  destruct (gateway _ _ _) as [w [response|e]]; simpl; [|done].
  by destruct (get_prop response "item").
Qed.

Lemma item_call_is_request s taskListId i task :
  is_item_request taskListId i task (item_call s (item_params taskListId i task)).
Proof.
  unfold is_item_request, item_call, answered, item_params. simpl.
  split; [done|]. by destruct (ts_isCompleted task) as [[]|].
Qed.

Lemma create_items_cons taskList i task tasks created s :
  create_items taskList i (task :: tasks) created s =
    match get_prop taskList "id" with
    | Thrown e => (s, Thrown e)
    | Returned taskListId =>
        let c := item_call s (item_params taskListId i task) in
        match call_item c with
        | Returned item =>
            create_items taskList (S i) tasks (created ++ [item]) (after_call s c)
        | Thrown e0 =>
            (after_call s c,
             Thrown (JsError ("Failed to create task in task list: " +:+ error_message e0)))
        end
    end.
Proof.
  simpl. unfold bind, lift.
  destruct (get_prop taskList "id") as [taskListId|e]; [|done].
  rewrite createTaskInTaskList_run.
  by destruct (call_item _).
Qed.

(** The loop of [createTaskListWithTasks] makes the item requests of a
    prefix of its inputs, in order, and nothing else: it returns when every
    one of them handed back its item, and throws at the first that did not
    (or, before any call, when [taskList.id] cannot be read). *)
Lemma create_items_run taskList tasks : forall i created s,
  exists calls,
    trace (create_items taskList i tasks created s).1 = trace s ++ calls /\
    remote (create_items taskList i tasks created s).1 = replay calls (remote s) /\
    taskCardIdMap (create_items taskList i tasks created s).1 = taskCardIdMap s /\
    (forall j c, calls !! j = Some c ->
       exists task taskListId,
         tasks !! j = Some task /\ get_prop taskList "id" = Returned taskListId /\
         is_item_request taskListId (i + j) task c) /\
    match (create_items taskList i tasks created s).2 with
    | Returned createdTasks =>
        length calls = length tasks /\
        exists items, createdTasks = created ++ items /\
                      Forall2 (fun c item => call_item c = Returned item) calls items
    | Thrown e =>
        (calls = [] /\ tasks <> [] /\ get_prop taskList "id" = Thrown e) \/
        (exists done bad e0,
            calls = done ++ [bad] /\
            Forall (fun c => exists item, call_item c = Returned item) done /\
            call_item bad = Thrown e0 /\
            e = JsError ("Failed to create task in task list: " +:+ error_message e0))
    end.
Proof.
  induction tasks as [|task tasks IH]; intros i created s.
  - exists []. simpl. rewrite !app_nil_r. split_and!; try done.
    exists []. by rewrite app_nil_r.
  - rewrite create_items_cons.
    destruct (get_prop taskList "id") as [taskListId|e] eqn:Hid.
    + cbv zeta. set (c := item_call s (item_params taskListId i task)).
      destruct (call_item c) as [item|e0] eqn:Hitem; simpl.
      * destruct (IH (S i) (created ++ [item]) (after_call s c))
          as (calls & Htrace & Hremote & Hmap & Hcalls & Hout).
        exists (c :: calls). split_and!.
        -- rewrite Htrace. simpl. by rewrite <- app_assoc.
        -- rewrite Hremote. done.
        -- rewrite Hmap. done.
        -- intros [|j] c' Hj; simpl in Hj.
           ++ injection Hj as <-. exists task, taskListId. split_and!; try done.
              rewrite Nat.add_0_r. apply item_call_is_request.
           ++ destruct (Hcalls j c' Hj) as (task' & taskListId' & Htask & Hid' & Hreq).
              exists task', taskListId'. split_and!; try done.
              by replace (i + S j)%nat with (S i + j)%nat by lia.
        -- destruct (create_items _ _ _ _ _).2 as [createdTasks|e].
           ++ destruct Hout as (Hlen & items & -> & Hitems). split; [simpl; by rewrite Hlen|].
              exists (item :: items). rewrite <- app_assoc. split; [done|].
              by constructor.
           ++ right. destruct Hout as [(-> & Hne & Hid')|(done' & bad & e1 & -> & Hdone & Hbad & ->)].
              ** congruence.
              ** exists (c :: done'), bad, e1. split_and!; try done.
                 constructor; [by eexists|done].
      * exists [c]. split_and!; try done.
        -- intros [|j] c' Hj; simpl in Hj; [|done].
           injection Hj as <-. exists task, taskListId. split_and!; try done.
           rewrite Nat.add_0_r. apply item_call_is_request.
        -- right. exists [], c, e0. by split_and!.
    + exists []. simpl. rewrite !app_nil_r. split_and!; try done.
      left. by split_and!.
Qed.

Lemma createTaskListWithTasks_run cardId name tasks s :
  createTaskListWithTasks cardId name tasks s =
    let c0 := create_call s (mkCreateTask cardId name None) in
    match call_item c0 with
    | Thrown e =>
        (after_call s c0,
         Thrown (JsError ("Failed to create task list with tasks: " +:+
                          "Failed to create task list: " +:+ error_message e)))
    | Returned taskList =>
        ((create_items taskList 0 tasks [] (after_call s c0)).1,
         match (create_items taskList 0 tasks [] (after_call s c0)).2 with
         | Returned createdTasks =>
             Returned (mkTaskListWithTasks taskList createdTasks)
         | Thrown e =>
             Thrown (JsError ("Failed to create task list with tasks: " +:+
                              error_message e))
         end)
    end.
Proof.
  unfold createTaskListWithTasks, try_catch, bind. rewrite createTask_run.
  cbv zeta. destruct (call_item _) as [taskList|e]; simpl; [|done].
  by destruct (create_items _ _ _ _ _) as [s' [createdTasks|e]].
Qed.

Lemma is_item_request_POST taskListId i task c :
  is_item_request taskListId i task c -> call_method c = POST.
Proof. intros [_ Hopt]. unfold call_method. by rewrite Hopt. Qed.

(** C2. [createTaskListWithTasks] is not transactional. Its gateway calls
    are the call that creates the task list followed by item-creating
    calls, all of them POSTs, and the remote service is left as these calls
    made it. When creating the task list fails, the operation raises and no
    item call is made. When the call for the item at index [i] fails, the
    operation raises, that call is the last one made (no deletion follows),
    and the calls before it are the successful creations of the items at
    indices [0..i-1]. *)
Theorem createTaskListWithTasks_not_transactional cardId name tasks s :
  exists item_calls,
    let c0 := create_call s (mkCreateTask cardId name None) in
    let run := createTaskListWithTasks cardId name tasks s in
    trace run.1 = trace s ++ c0 :: item_calls /\
    remote run.1 = replay (c0 :: item_calls) (remote s) /\
    Forall (fun c => call_method c = POST) (c0 :: item_calls) /\
    (forall e,
        (createTask (mkCreateTask cardId name None) s).2 = Thrown e ->
        item_calls = [] /\
        run.2 = Thrown (JsError ("Failed to create task list with tasks: " +:+
                                 error_message e))) /\
    (forall i c e,
        item_calls !! i = Some c -> call_item c = Thrown e ->
        run.2 = Thrown (JsError ("Failed to create task list with tasks: " +:+
                                 "Failed to create task in task list: " +:+
                                 error_message e)) /\
        length item_calls = S i /\
        exists taskList taskListId,
          call_item c0 = Returned taskList /\
          get_prop taskList "id" = Returned taskListId /\
          forall j cj,
            item_calls !! j = Some cj ->
            (exists task, tasks !! j = Some task /\
                          is_item_request taskListId j task cj) /\
            ((j < i)%nat -> exists item, call_item cj = Returned item)).
Proof.
  cbv zeta. rewrite createTaskListWithTasks_run, createTask_run. cbv zeta.
  set (c0 := create_call s (mkCreateTask cardId name None)).
  assert (Hc0 : call_method c0 = POST) by done.
  destruct (call_item c0) as [taskList|e0] eqn:Hitem0.
  - destruct (create_items_run taskList tasks 0 [] (after_call s c0))
      as (calls & Htrace & Hremote & _ & Hcalls & Hout).
    exists calls. simpl. split_and!.
    + rewrite Htrace. simpl. by rewrite <- app_assoc.
    + by rewrite Hremote.
    + constructor; [done|]. apply Forall_lookup. intros j c Hj.
      destruct (Hcalls j c Hj) as (task & taskListId & _ & _ & Hreq).
      by eapply is_item_request_POST.
    + done.
    + intros i c e Hi Hfail.
      destruct (Hcalls i c Hi) as (_ & taskListId & _ & Hid & _).
      destruct (create_items _ _ _ _ _).2 as [createdTasks|e'].
      { destruct Hout as (_ & items & _ & Hitems).
        destruct (Forall2_lookup_l _ _ _ _ _ Hitems Hi) as (item & _ & Hok).
        congruence. }
      destruct Hout as [(-> & _)|(done' & bad & e1 & -> & Hdone & Hbad & ->)];
        [done|].
      assert (Hidx : i = length done').
      { destruct (decide (i < length done')%nat) as [Hlt|Hge].
        - rewrite lookup_app_l in Hi by done.
          destruct (Forall_lookup_1 _ _ _ _ Hdone Hi) as [item Hok]. congruence.
        - apply lookup_lt_Some in Hi. rewrite length_app in Hi. simpl in Hi. lia. }
      subst i. rewrite lookup_app_r, Nat.sub_diag in Hi by done.
      injection Hi as <-. assert (e1 = e) as -> by congruence.
      split_and!; [done|rewrite length_app; simpl; lia|].
      exists taskList, taskListId. split_and!; [done..|].
      intros j cj Hj. destruct (Hcalls j cj Hj) as (task & tlid & Htask & Hid' & Hreq).
      assert (tlid = taskListId) as -> by congruence. split; [by exists task|].
      intros Hlt. rewrite lookup_app_l in Hj by done.
      exact (Forall_lookup_1 _ _ _ _ Hdone Hj).
  - exists []. simpl. split_and!; try done.
    + by repeat constructor.
    + intros e [= <-]. done.
Qed.


Lemma str_or_effective cardId mapped :
  match effective_card_id cardId mapped with
  | None => str_truthy (str_or cardId mapped) = false
  | Some c => str_or cardId mapped = Some c /\ c <> ""
  end.
Proof.
  unfold effective_card_id, str_or, str_truthy.
  destruct cardId as [c|], mapped as [m|]; simpl;
    repeat case_decide; subst; simpl; try done.
  all: repeat match goal with
         | H : ?x <> "" |- context [String.eqb ?x ""] =>
             rewrite (proj2 (String.eqb_neq x "") H)
         end; by simpl.
Qed.

Lemma getTask_run id cardId s :
  getTask id cardId s =
    match effective_card_id cardId (card_lookup (taskCardIdMap s) id) with
    | None => (s, Thrown (JsError ("Failed to get task list: " +:+ missing_card_id)))
    | Some c =>
        (after_call s (answered s (Card c) None),
         found_in_card id c (call_response (answered s (Card c) None)))
    end.
Proof.
  unfold getTask, try_catch, bind, lookup_card.
  pose proof (str_or_effective cardId (card_lookup (taskCardIdMap s) id)) as Heff.
  destruct (effective_card_id _ _) as [c|].
  - destruct Heff as [-> Hc]. apply String.eqb_neq in Hc.
    unfold str_truthy. rewrite Hc. cbn [negb default].
    rewrite plankaRequest_run by done. unfold found_in_card, answered. simpl.
    destruct (gateway _ _ _).2 as [response|e]; [|done].
    destruct (embedded_task_lists response); try done.
    unfold lift. destruct (find_task_list id items) as [taskList|e]; [|done].
    by destruct (truthy taskList).
  - by rewrite Heff.
Qed.

Lemma find_task_list_none id taskLists :
  Forall (other_id id) taskLists ->
  find_task_list id taskLists = Returned VUndefined.
Proof.
  induction 1 as [|tl taskLists (v & Hv & Hne) _ IH]; simpl; [done|].
  rewrite Hv. destruct v; try done.
  destruct (String.eqb_spec s id) as [->|]; [done|exact IH].
Qed.

Lemma find_task_list_first id before tl rest :
  Forall (other_id id) before ->
  get_prop tl "id" = Returned (VStr id) ->
  find_task_list id (before ++ tl :: rest) = Returned tl /\ truthy tl = true.
Proof.
  intros Hbefore Htl.
  induction Hbefore as [|x before (v & Hv & Hne) _ IH]; simpl.
  - rewrite Htl, String.eqb_refl. split; [done|].
    by destruct tl as [| | | | | |fields].
  - rewrite Hv. destruct v; try done.
    by destruct (String.eqb_spec s id) as [->|].
Qed.

Lemma find_task_list_nullish id before x rest :
  Forall (other_id id) before -> nullish x = true ->
  find_task_list id (before ++ x :: rest) = Thrown (type_error x "id").
Proof.
  intros Hbefore Hx.
  induction Hbefore as [|y before (v & Hv & Hne) _ IH]; simpl.
  - by destruct x.
  - rewrite Hv. destruct v as [| | | |str| |]; try done.
    by destruct (String.eqb_spec str id) as [->|].
Qed.

Lemma card_lookup_own (m : gmap string string) id :
  prototype_member id = None -> card_lookup m id = m !! id.
Proof. intros Hid. unfold card_lookup. by destruct (m !! id). Qed.

(** C5, as the code has it. [getTask] reads the card named by the [cardId]
    argument when that is a non-empty string, else the card that
    [taskCardIdMap[id]] gives when that is one: the card recorded for
    [id], which is all there is to find for an [id] that names no member
    of [Object.prototype]. With neither, it raises the missing-context
    error and the state, trace included, is untouched. Otherwise it makes
    exactly one call, the read of that card, and raises the wrapped failure
    when the read fails, one error when the answer embeds no collection,
    another when every element of the collection has a readable id other
    than [id]; it returns the first element that has the id when the
    elements before it have readable other ids, and raises the wrapped
    [TypeError] of the read when a [null] element comes first. The three
    messages differ. *)
Theorem getTask_resolves id cardId s :
  (prototype_member id = None ->
   card_lookup (taskCardIdMap s) id = taskCardIdMap s !! id) /\
  match effective_card_id cardId (card_lookup (taskCardIdMap s) id) with
  | None =>
      getTask id cardId s =
        (s, Thrown (JsError ("Failed to get task list: " +:+ missing_card_id)))
  | Some c =>
      let call := answered s (Card c) None in
      let run := getTask id cardId s in
      run.1 = after_call s call /\
      trace run.1 = trace s ++ [call] /\
      (forall e,
          call_response call = Thrown e ->
          run.2 = Thrown (JsError ("Failed to get task list: " +:+ error_message e))) /\
      (forall response,
          call_response call = Returned response ->
          (isArray (embedded_task_lists response) = false ->
           run.2 = Thrown (JsError ("Failed to get task list: " +:+
                                    "Failed to get task lists for card " +:+ c))) /\
          (forall taskLists,
              embedded_task_lists response = VArr taskLists ->
              (Forall (other_id id) taskLists ->
               run.2 = Thrown (JsError ("Failed to get task list: " +:+
                                        "Task list with ID " +:+ id +:+
                                        " not found in card " +:+ c))) /\
              (forall before tl rest,
                  taskLists = before ++ tl :: rest ->
                  Forall (other_id id) before ->
                  get_prop tl "id" = Returned (VStr id) ->
                  run.2 = Returned tl) /\
              (forall before x rest,
                  taskLists = before ++ x :: rest ->
                  Forall (other_id id) before ->
                  nullish x = true ->
                  run.2 = Thrown (JsError ("Failed to get task list: " +:+
                                           error_message (type_error x "id"))))))
  end /\
  (forall c c',
      missing_card_id <> "Failed to get task lists for card " +:+ c /\
      missing_card_id <> "Task list with ID " +:+ id +:+ " not found in card " +:+ c /\
      "Failed to get task lists for card " +:+ c
        <> "Task list with ID " +:+ id +:+ " not found in card " +:+ c').
Proof.
  split; [apply card_lookup_own|]. split; [|by intros c c'].
  rewrite getTask_run. destruct (effective_card_id _ _) as [c|]; [|done].
  cbv zeta. cbn [fst snd]. split_and!; [done..| |].
  - intros e ->. done.
  - intros response ->. unfold found_in_card. split.
    + intros Harr. by destruct (embedded_task_lists response).
    + intros taskLists ->. split_and!.
      * intros Hnone. by rewrite find_task_list_none.
      * intros before tl rest -> Hbefore Htl.
        destruct (find_task_list_first id before tl rest Hbefore Htl) as [-> Htruthy].
        by rewrite Htruthy.
      * intros before x rest -> Hbefore Hx.
        by rewrite (find_task_list_nullish id before x rest Hbefore Hx).
Qed.

Lemma getComments_run cardId s :
  getComments cardId s =
    (after_call s (answered s (CardComments cardId) None),
     Returned (normalized (call_response (answered s (CardComments cardId) None)))).
Proof.
  unfold getComments, try_catch, bind, zparse, lift, throw, ret, normalized.
  rewrite plankaRequest_run by done. unfold answered. simpl.
  destruct (gateway _ _ _).2 as [response|e]; [|done].
  destruct (CommentActionsResponseSchema response) as [comments|] eqn:Hfirst; [done|].
  destruct response; simpl; try done.
  by destruct (mapM CommentActionSchema items).
Qed.

(** C6. [getComments] never raises and makes one call, the read of the
    card's comments. An enveloped answer, an object whose [items] is a
    sequence of valid comments (and whose [included], if any, is an
    object), yields the validated comments in their order; so does a bare
    sequence of valid comments. When neither shape validates, or the read
    fails, the result is the empty sequence. *)
Theorem getComments_tolerant cardId s :
  let call := answered s (CardComments cardId) None in
  exists comments,
    getComments cardId s = (after_call s call, Returned comments) /\
    (forall e, call_response call = Thrown e -> comments = []) /\
    (forall response,
        call_response call = Returned response ->
        (forall fields items cs,
            response = VObj fields ->
            included_ok fields = true ->
            assoc "items" fields = VArr items ->
            Forall2 (fun v c => CommentActionSchema v = Some c) items cs ->
            comments = cs) /\
        (forall items cs,
            response = VArr items ->
            Forall2 (fun v c => CommentActionSchema v = Some c) items cs ->
            comments = cs) /\
        (CommentActionsResponseSchema response = None ->
         CommentActionArraySchema response = None ->
         comments = [])).
Proof.
  cbv zeta. eexists. split; [apply getComments_run|].
  split; [by intros e ->|].
  intros response ->. unfold normalized. split_and!.
  - intros fields items cs -> Hinc Hitems Hvalid.
    apply mapM_Some in Hvalid. simpl. by rewrite Hinc, Hitems; simpl; rewrite Hvalid.
  - intros items cs -> Hvalid. apply mapM_Some in Hvalid. simpl. by rewrite Hvalid.
  - by intros -> ->.
Qed.

(** C7, as the code has it. [getTasks] never raises and makes one call,
    the read of the card. It returns the empty sequence when the read
    fails. Otherwise it looks at [included.taskLists] or, only when that
    is missing or falsy, at [included.tasks]: it returns the one it looks
    at when that is a sequence and the empty sequence when it is not, so
    that a truthy [included.taskLists] that is no sequence gives the empty
    sequence whatever [included.tasks] holds. *)
Theorem getTasks_never_throws cardId s :
  let call := answered s (Card cardId) None in
  exists taskLists,
    getTasks cardId s = (after_call s call, Returned taskLists) /\
    (forall e, call_response call = Thrown e -> taskLists = []) /\
    (forall response,
        call_response call = Returned response ->
        let included := opt_prop response "included" in
        (forall l, opt_prop included "taskLists" = VArr l -> taskLists = l) /\
        (truthy (opt_prop included "taskLists") = true ->
         isArray (opt_prop included "taskLists") = false ->
         taskLists = []) /\
        (forall l,
            truthy (opt_prop included "taskLists") = false ->
            opt_prop included "tasks" = VArr l ->
            taskLists = l) /\
        (truthy (opt_prop included "taskLists") = false ->
         isArray (opt_prop included "tasks") = false ->
         taskLists = [])).
Proof.
  cbv zeta. unfold getTasks, try_catch, bind, ret.
  rewrite plankaRequest_run by done. unfold answered. simpl.
  destruct (gateway _ _ _).2 as [response|e].
  - unfold embedded_task_lists, js_or.
    set (a := opt_prop (opt_prop response "included") "taskLists").
    set (b := opt_prop (opt_prop response "included") "tasks").
    exists (match (if truthy a then a else b) with VArr l => l | _ => [] end).
    split; [by destruct (if truthy a then a else b)|].
    split; [done|]. intros ? [= <-]. split_and!.
    + fold a. by intros l ->.
    + fold a. intros -> Ha. by destruct a.
    + fold a b. by intros l -> ->.
    + fold a b. intros -> Hb. by destruct b.
  - exists []. split; [done|]. split; [done|]. by intros response.
Qed.

Lemma getComment_run id cardId s :
  getComment id cardId s =
    (after_call s (answered s (CardComments cardId) None),
     match find_comment id
             (normalized (call_response (answered s (CardComments cardId) None))) with
     | Some comment => Returned comment
     | None =>
         Thrown (JsError ("Failed to get comment: " +:+ "Comment with ID " +:+ id
                          +:+ " not found in card " +:+ cardId))
     end).
Proof.
  unfold getComment, try_catch, bind. rewrite getComments_run.
  by destruct (find_comment id _).
Qed.

(** C10. When the read of the card's comments fails, whatever the failure,
    [getComment] raises the not-found error that names the comment and the
    card, under the failed-get prefix; it raises the very same error when
    the read succeeds and the card has no comment with that id. *)
Theorem getComment_hides_fetch_failure id cardId s e :
  call_response (answered s (CardComments cardId) None) = Thrown e ->
  (getComment id cardId s).2 =
    Thrown (JsError ("Failed to get comment: " +:+ "Comment with ID " +:+ id
                     +:+ " not found in card " +:+ cardId)) /\
  forall s2 response,
    call_response (answered s2 (CardComments cardId) None) = Returned response ->
    find_comment id (normalized (Returned response)) = None ->
    (getComment id cardId s2).2 = (getComment id cardId s).2.
Proof.
  intros Hfail. split.
  - rewrite getComment_run. cbn [snd]. by rewrite Hfail.
  - intros s2 response Hok Hnone.
    rewrite !getComment_run. cbn [snd]. by rewrite Hfail, Hok, Hnone.
Qed.

(** ** The map follows the trace *)























(** ** Which operations wrap, and which validate *)


Lemma plankaRequest_response ep options s :
  (plankaRequest ep options s).2 = call_response (answered s ep options).
Proof. unfold plankaRequest, answered. simpl. by destruct (gateway _ _ _). Qed.


Lemma returns_validated_intro {A} (safeParse : value -> option A) schema ep options
    (m : M A) :
  (forall s, (m s).2 = (bind (plankaRequest ep options) (zparse schema safeParse) s).2
             \/ exists e, (m s).2 = Thrown e) ->
  returns_validated safeParse ep options m.
Proof.
  intros Hm s a Ha. destruct (Hm s) as [Hrun|[e He]]; [|congruence].
  rewrite Hrun in Ha. unfold bind, zparse, lift in Ha.
  pose proof (plankaRequest_response ep options s) as Hresp.
  destruct (plankaRequest ep options s) as [s' [response|e]]; simpl in *; [|done].
  exists response. split; [done|]. destruct (safeParse response); congruence.
Qed.

Lemma find_comment_Some id comments c :
  find_comment id comments = Some c -> ca_id c = id /\ c ∈ comments.
Proof.
  induction comments as [|x comments IH]; simpl; [done|].
  destruct (String.eqb_spec (ca_id x) id) as [Hx|Hx].
  - intros [= <-]. split; [done|by left].
  - intros Hfind. destruct (IH Hfind). split; [done|by right].
Qed.

Lemma normalized_items answer c :
  c ∈ normalized answer ->
  exists response v,
    answer = Returned response /\ v ∈ answer_items response /\
    CommentActionSchema v = Some c.
Proof.
  unfold normalized. destruct answer as [response|e]; [|by intros ?%elem_of_nil].
  assert (Hitems : forall items comments,
    mapM CommentActionSchema items = Some comments -> c ∈ comments ->
    exists v, v ∈ items /\ CommentActionSchema v = Some c).
  { intros items comments Hvalid%mapM_Some Hc.
    apply list_elem_of_lookup in Hc as [i Hi].
    destruct (Forall2_lookup_r _ _ _ _ _ Hvalid Hi) as (v & Hv & Hok).
    exists v. split; [by eapply list_elem_of_lookup_2|done]. }
  destruct response as [| | | | |items|fields]; simpl;
    try by intros ?%elem_of_nil.
  - destruct (mapM CommentActionSchema items) as [comments|] eqn:Hvalid;
      [|by intros ?%elem_of_nil].
    intros Hc. destruct (Hitems items comments Hvalid Hc) as (v & Hv & Hok).
    by exists (VArr items), v.
  - destruct (included_ok fields); [|by intros ?%elem_of_nil].
    unfold CommentActionArraySchema.
    destruct (assoc "items" fields) as [| | | | |items|] eqn:Hfield;
      try by intros ?%elem_of_nil.
    destruct (mapM CommentActionSchema items) as [comments|] eqn:Hvalid;
      [|by intros ?%elem_of_nil].
    intros Hc. destruct (Hitems items comments Hvalid Hc) as (v & Hv & Hok).
    exists (VObj fields), v. split_and!; [done| |done].
    unfold answer_items. simpl. by rewrite Hfield.
Qed.


End Properties.

(** * The properties on the scenarios *)

(** [A], [B], [C] with [B] failing: the call returns, [failures] has one
    entry, with index 1, and [successes] has the two entities of [A] and
    [C]. *)
Example batch_B_fails :
  (@batchCreateTasks scripted [0; 1; 2]%nat state_ABC).2 =
    Returned
      (mkBatch
         [ResultSuccess (entity "t1" "A");
          ResultFailure "Failed to create task list: boom";
          ResultSuccess (entity "t3" "C")]
         [entity "t1" "A"; entity "t3" "C"]
         [mkTaskError 1 1%nat "Failed to create task list: boom"]).
Proof. vm_compute. reflexivity. Qed.

Lemma batchCreateTasks_partitions_witness :
  Forall (fun r => is_Some (heap state_ABC !! r)) [0; 1; 2]%nat /\
  exists s' res,
    @batchCreateTasks scripted [0; 1; 2]%nat state_ABC = (s', Returned res) /\
    length (results res) = 3%nat /\
    successes res = omap result_success (results res) /\
    failures res = failure_records 0 [0; 1; 2]%nat (results res).
Proof.
  assert (Hheap : Forall (fun r => is_Some (heap state_ABC !! r)) [0; 1; 2]%nat).
  { repeat (constructor; [vm_compute; eauto|]). constructor. }
  split; [exact Hheap|].
  destruct (proj1 (@batchCreateTasks_partitions scripted [0; 1; 2]%nat state_ABC) Hheap)
    as (calls & s' & res & Hrun & _ & Hlen & _ & Hres & Hsucc & _ & Hfail).
  exists s', res. split_and!; [exact Hrun| |exact Hsucc|exact Hfail].
  rewrite Hres, length_map. exact Hlen.
Defined.

(** C4, at an input with the explicit position 0: [batchCreateTasks]
    creates the task list with position 65535 and overwrites the position
    of the caller's object, whereas [createTask] on the same input sends
    the position 0. *)
Theorem batch_overwrites_position_zero :
  heap state_zero !! 0%nat = Some (mkCreateTask "c1" "A" (Some 0)) /\
  map call_options (trace (@batchCreateTasks scripted [0%nat] state_zero).1)
    = [Some (create_task_request "A" 65535)] /\
  heap (@batchCreateTasks scripted [0%nat] state_zero).1 !! 0%nat
    = Some (mkCreateTask "c1" "A" (Some 65535)) /\
  map call_options
      (trace (@createTask scripted (mkCreateTask "c1" "A" (Some 0)) state_zero).1)
    = [Some (create_task_request "A" 0)].
Proof. split_and!; vm_compute; reflexivity. Qed.

Lemma createTaskListWithTasks_not_transactional_witness :
  (@createTaskListWithTasks scripted "c1" "L" three_items state_second_item_fails).2 =
    Thrown (JsError "Failed to create task list with tasks: Failed to create task in task list: boom") /\
  map call_method
      (trace (@createTaskListWithTasks scripted "c1" "L" three_items
                state_second_item_fails).1)
    = [POST; POST; POST].
Proof.
  destruct (@createTaskListWithTasks_not_transactional scripted "c1" "L" three_items
              state_second_item_fails)
    as (item_calls & Htrace & _ & _ & _ & Hitem).
  cbv zeta in *.
  assert (Hcalls : item_calls =
    [mkCall (TaskListTasks "tl1") (Some (create_item_request "one" 65535 false))
       (Returned (enveloped (entity "i1" "one")));
     mkCall (TaskListTasks "tl1") (Some (create_item_request "two" 131070 true))
       (Thrown (JsError "boom"))]).
  { vm_compute in Htrace. by injection Htrace as <-. }
  subst item_calls. split; [|vm_compute; reflexivity].
  exact (proj1 (Hitem 1%nat _ (JsError "boom") eq_refl eq_refl)).
Defined.


(** With the explicit [cardId] given as the empty string, [getTask] reads
    the card that the map holds for the id, as it does without the
    argument: the card it reads is the card [c1], not the card of the
    argument. And with no [cardId] and nothing recorded, [getTask] at the
    id [constructor] does not raise the missing-context error: it makes a
    call, the read of a card named by the inherited member. *)
Lemma getTask_empty_cardId_reads_mapped_card :
  taskCardIdMap state_tl1_recorded !! "tl1" = Some "c1" /\
  @getTask scripted "tl1" (Some "") state_tl1_recorded
    = @getTask scripted "tl1" None state_tl1_recorded /\
  map call_endpoint
      (drop 1 (trace (@getTask scripted "tl1" (Some "") state_tl1_recorded).1))
    = [Card "c1"] /\
  Card "c1" <> Card "" /\
  taskCardIdMap state_loaded !! "constructor" = None /\
  map call_endpoint (trace (@getTask scripted "constructor" None state_loaded).1)
    = [Card "function Object() { [native code] }"].
Proof. split_and!; [vm_compute; reflexivity..|discriminate|done|vm_compute; reflexivity]. Qed.

Lemma getTask_resolves_witness :
  (@getTask scripted "tl1" None state_tl1_recorded).2 = Returned (entity "tl1" "L").
Proof.
  pose proof (proj1 (proj2 (@getTask_resolves scripted "tl1" None state_tl1_recorded)))
    as H.
  change (effective_card_id None
            (card_lookup (taskCardIdMap state_tl1_recorded) "tl1"))
    with (Some "c1") in H.
  cbv zeta in H. destruct H as (_ & _ & _ & Hanswer).
  destruct (Hanswer card_answer eq_refl) as [_ Harr].
  destruct (Harr [entity "tl0" "K"; entity "tl1" "L"] eq_refl) as (_ & Hfound & _).
  apply (Hfound [entity "tl0" "K"] (entity "tl1" "L") []); [reflexivity| |reflexivity].
  constructor; [|constructor]. exists (VStr "tl0"). split; [reflexivity|discriminate].
Defined.

Lemma getComments_tolerant_witness :
  (@getComments scripted "c1" state_comments).2 = Returned [comment_m1] /\
  (@getComments scripted "c1" (state_failing "boom")).2 = Returned [].
Proof.
  split.
  - destruct (@getComments_tolerant scripted "c1" state_comments)
      as (comments & -> & _ & Hanswer).
    cbn [snd]. f_equal.
    destruct (Hanswer (VObj [("items", VArr [comment_answer])]) eq_refl)
      as (Henveloped & _ & _).
    apply (Henveloped [("items", VArr [comment_answer])] [comment_answer]);
      [reflexivity..|].
    constructor; [reflexivity|constructor].
  - destruct (@getComments_tolerant scripted "c1" (state_failing "boom"))
      as (comments & -> & Hfail & _).
    cbn [snd]. f_equal. exact (Hfail (JsError "boom") eq_refl).
Defined.

Lemma getTasks_never_throws_witness :
  (@getTasks scripted "c1"
     (@initial scripted [Returned card_answer] ∅)).2
    = Returned [entity "tl0" "K"; entity "tl1" "L"] /\
  (@getTasks scripted "c1" (state_failing "boom")).2 = Returned [].
Proof.
  split.
  - destruct (@getTasks_never_throws scripted "c1"
                (@initial scripted [Returned card_answer] ∅))
      as (taskLists & -> & _ & Hanswer).
    cbn [snd]. f_equal.
    destruct (Hanswer card_answer eq_refl) as (Hfirst & _).
    apply Hfirst. reflexivity.
  - destruct (@getTasks_never_throws scripted "c1" (state_failing "boom"))
      as (taskLists & -> & Hfail & _).
    cbn [snd]. f_equal. exact (Hfail (JsError "boom") eq_refl).
Defined.

(** A truthy [included.taskLists] that is no sequence hides the sequence of
    [included.tasks]: [getTasks] returns the empty sequence. *)
Lemma getTasks_truthy_taskLists_hides_tasks :
  opt_prop (opt_prop card_answer_odd_taskLists "included") "tasks"
    = VArr [entity "tl9" "Z"] /\
  (@getTasks scripted "c1"
     (@initial scripted [Returned card_answer_odd_taskLists] ∅)).2
    = Returned [].
Proof. split; vm_compute; reflexivity. Qed.




Lemma getComment_hides_fetch_failure_witness :
  (@getComment scripted "m1" "c1" (state_failing "boom")).2
    = Thrown (JsError "Failed to get comment: Comment with ID m1 not found in card c1") /\
  (@getComment scripted "m2" "c1" state_comments).2
    = (@getComment scripted "m2" "c1" (state_failing "boom")).2.
Proof.
  destruct (@getComment_hides_fetch_failure scripted "m1" "c1" (state_failing "boom")
              (JsError "boom") eq_refl) as [Hraise _].
  split; [exact Hraise|].
  destruct (@getComment_hides_fetch_failure scripted "m2" "c1" (state_failing "boom")
              (JsError "boom") eq_refl) as [_ Hsame].
  apply (Hsame state_comments (VObj [("items", VArr [comment_answer])])); reflexivity.
Defined.

(** * Further properties of the operations *)

Section Footprint_facts.
Context `{C : Collaborators}.

Implicit Types (s : State) (calls : list Call) (e : exn).

Lemma pure_lift {A} (o : outcome A) : pure_op (lift o).
Proof. done. Qed.

Lemma pure_ret {A} (a : A) : pure_op (ret a).
Proof. done. Qed.

Lemma pure_throw {A} e : pure_op (@throw _ A e).
Proof. done. Qed.

Lemma pure_zparse {A} schema (safeParse : value -> option A) v :
  pure_op (zparse schema safeParse v).
Proof. done. Qed.

Lemma pure_bind {A B} (m : M A) (k : A -> M B) :
  pure_op m -> (forall a, pure_op (k a)) -> pure_op (bind m k).
Proof.
  intros Hm Hk s. unfold bind. specialize (Hm s).
  destruct (m s) as [s1 [a|e]]; simpl in *; subst; [apply Hk|done].
Qed.

Lemma pure_try_catch {A} (m : M A) (handler : exn -> M A) :
  pure_op m -> (forall e, pure_op (handler e)) -> pure_op (try_catch m handler).
Proof.
  intros Hm Hh s. unfold try_catch. specialize (Hm s).
  destruct (m s) as [s1 [a|e]]; simpl in *; subst; [done|apply Hh].
Qed.

Lemma one_call_request ep options :
  (forall cardId, ep <> CardTaskLists cardId) ->
  one_call ep options (plankaRequest ep options).
Proof.
  intros Hep s. rewrite plankaRequest_run; [done|].
  unfold recorded, answered. simpl. destruct ep; try done. by destruct (Hep cardId).
Qed.

Lemma one_call_bind {A B} ep options (m : M A) (k : A -> M B) :
  one_call ep options m -> (forall a, pure_op (k a)) ->
  one_call ep options (bind m k).
Proof.
  intros Hm Hk s. unfold bind. specialize (Hm s).
  destruct (m s) as [s1 [a|e]]; simpl in *; subst; [apply Hk|done].
Qed.

Lemma one_call_try_catch {A} ep options (m : M A) (handler : exn -> M A) :
  one_call ep options m -> (forall e, pure_op (handler e)) ->
  one_call ep options (try_catch m handler).
Proof.
  intros Hm Hh s. unfold try_catch. specialize (Hm s).
  destruct (m s) as [s1 [a|e]]; simpl in *; subst; [done|apply Hh].
Qed.

(** The steps that discharge [pure_op] and [one_call] goals. *)
Ltac footprint_step :=
  first
    [ apply pure_ret | apply pure_throw | apply pure_lift | apply pure_zparse
    | apply pure_bind; [|intros ?]
    | apply pure_try_catch; [|intros ?]
    | apply one_call_request; by intros ?
    | apply one_call_bind; [|intros ?]
    | apply one_call_try_catch; [|intros ?]
    | match goal with
      | |- pure_op (if ?b then _ else _) => destruct b
      | |- pure_op (match ?x with _ => _ end) => destruct x
      end ].

Lemma one_call_getTasks cardId : one_call (Card cardId) None (getTasks cardId).
Proof. unfold getTasks. repeat footprint_step. Qed.

Lemma one_call_updateTask id options :
  one_call (TaskList id) (Some (task_list_patch_request options)) (updateTask id options).
Proof. unfold updateTask. repeat footprint_step. Qed.

Lemma one_call_deleteTask id :
  one_call (TaskList id) (Some (mkOptions DELETE None)) (deleteTask id).
Proof. unfold deleteTask. repeat footprint_step. Qed.

Lemma one_call_updateTaskInTaskList id options :
  one_call (Task id) (Some (task_patch_request options)) (updateTaskInTaskList id options).
Proof. unfold updateTaskInTaskList. repeat footprint_step. Qed.

Lemma one_call_deleteTaskInTaskList id :
  one_call (Task id) (Some (mkOptions DELETE None)) (deleteTaskInTaskList id).
Proof. unfold deleteTaskInTaskList. repeat footprint_step. Qed.

Lemma one_call_createComment cardId text :
  one_call (CardComments cardId)
    (Some (mkOptions POST (Some (VObj [("text", VStr text)]))))
    (createComment cardId text).
Proof. unfold createComment. repeat footprint_step. Qed.

Lemma one_call_updateComment id text :
  one_call (Comment id)
    (Some (mkOptions PATCH (Some (obj [("text", VStr <$> text)]))))
    (updateComment id text).
Proof. unfold updateComment. repeat footprint_step. Qed.

Lemma one_call_deleteComment id :
  one_call (Comment id) (Some (mkOptions DELETE None)) (deleteComment id).
Proof. unfold deleteComment. repeat footprint_step. Qed.

Lemma footprint_of_after_call (P : Call -> Prop) s s' c :
  s' = after_call s c -> P c ->
  exists calls,
    trace s' = trace s ++ calls /\ remote s' = replay calls (remote s) /\
    Forall P calls /\ length calls = 1%nat.
Proof. intros -> HP. exists [c]. split_and!; [done..|by constructor|done]. Qed.

(** The loop of [batchCreateTasks], on any input: at most one call per
    input, each a POST that creates a task list. *)
Lemma batch_loop_footprint tasks : forall i acc s,
  exists calls,
    trace (batch_loop i tasks acc s).1 = trace s ++ calls /\
    remote (batch_loop i tasks acc s).1 = replay calls (remote s) /\
    Forall (fun c => call_method c = POST /\
                     exists cardId, call_endpoint c = CardTaskLists cardId) calls /\
    (length calls <= length tasks)%nat.
Proof.
  induction tasks as [|r tasks IH]; intros i acc s.
  - exists []. simpl. rewrite app_nil_r. by split_and!.
  - destruct (heap s !! r) as [task|] eqn:Hr.
    + destruct (batch_step_run i r acc s task Hr)
        as (s1 & Hremote & Htrace & _ & _ & Hstep).
      set (c := create_call s (batch_task i task)) in *.
      destruct (IH (S i) (push_result i r acc (result_of_call c)) (after_call s1 c))
        as (calls & Htrace' & Hremote' & Hcalls & Hlen).
      simpl. unfold bind. rewrite Hstep. exists (c :: calls). split_and!.
      * rewrite Htrace'. simpl. by rewrite Htrace, <- app_assoc.
      * rewrite Hremote'. simpl. by rewrite Hremote.
      * constructor; [|done]. split; [done|]. by eexists.
      * simpl. lia.
    + exists []. simpl. unfold bind, batch_step, bind, read_task. rewrite Hr. simpl.
      rewrite app_nil_r. split_and!; [done..|lia].
Qed.

(** X1. The requests of an operation. Whatever the state and whatever the
    service answers, the calls that an operation adds to the trace all
    carry the verb of the operation and address its endpoints; every
    operation makes exactly one call, except [getTask], which makes none
    when it has no card to read, [batchCreateTasks], which makes at most
    one per input, and [createTaskListWithTasks], which makes the creation
    call and at most one call per task; and the remote service is changed
    by these calls only. *)
Theorem operation_footprint (op : Op) s :
  exists calls,
    trace (run_op op s) = trace s ++ calls /\
    remote (run_op op s) = replay calls (remote s) /\
    Forall (fun c => call_method c = verb op /\ on_endpoint op (call_endpoint c)) calls /\
    (min_calls op <= length calls <= max_calls op)%nat.
Proof.
  assert (Hone : forall s' c,
    s' = after_call s c ->
    call_method c = verb op /\ on_endpoint op (call_endpoint c) ->
    min_calls op = 1%nat -> max_calls op = 1%nat ->
    exists calls,
      trace s' = trace s ++ calls /\ remote s' = replay calls (remote s) /\
      Forall (fun c => call_method c = verb op /\ on_endpoint op (call_endpoint c)) calls /\
      (min_calls op <= length calls <= max_calls op)%nat).
  { intros s' c Hs' Hc Hmin Hmax.
    destruct (footprint_of_after_call
                (fun c => call_method c = verb op /\ on_endpoint op (call_endpoint c))
                s s' c Hs' Hc) as (calls & ? & ? & ? & Hlen).
    exists calls. split_and!; [done..|lia|lia]. }
  destruct op; simpl run_op.
  - eapply Hone; [by rewrite createTask_run|done..].
  - destruct (batch_loop_footprint tasks 0 (mkBatch [] [] []) s)
      as (calls & Htrace & Hremote & Hcalls & Hlen).
    exists calls. unfold batchCreateTasks, try_catch.
    destruct (batch_loop 0 tasks _ s) as [s' [res|e]]; simpl in *;
      (split_and!; try done; lia).
  - eapply Hone; [apply one_call_getTasks|done..].
  - rewrite getTask_run. destruct (effective_card_id _ _) as [c|]; simpl.
    + exists [answered s (Card c) None]. split_and!; [done..| |lia|done].
      constructor; [|done]. split; [done|]. by eexists.
    + exists []. rewrite app_nil_r. split_and!; [done..|simpl; lia|simpl; lia].
  - eapply Hone; [apply one_call_updateTask|done..].
  - eapply Hone; [apply one_call_deleteTask|done..].
  - eapply Hone; [by rewrite createTaskInTaskList_run|done..].
  - eapply Hone; [apply one_call_updateTaskInTaskList|done..].
  - eapply Hone; [apply one_call_deleteTaskInTaskList|done..].
  - rewrite createTaskListWithTasks_run. cbv zeta.
    set (c0 := create_call s (mkCreateTask cardId name None)).
    destruct (call_item c0) as [taskList|e0].
    + destruct (create_items_run taskList tasks 0 [] (after_call s c0))
        as (calls & Htrace & Hremote & _ & Hcalls & _).
      exists (c0 :: calls). cbn [fst]. split_and!.
      * rewrite Htrace. simpl. by rewrite <- app_assoc.
      * by rewrite Hremote.
      * constructor; [split; [done|by left]|].
        apply Forall_lookup. intros j c Hj.
        destruct (Hcalls j c Hj) as (task & taskListId & _ & _ & Hreq).
        split; [by eapply is_item_request_POST|]. right. destruct Hreq as [-> _].
        by eexists.
      * simpl. lia.
      * simpl. apply le_n_S. destruct (decide (length calls <= length tasks)%nat) as [|Hgt];
          [done|].
        destruct (lookup_lt_is_Some_2 calls (length tasks)) as [c Hc]; [lia|].
        destruct (Hcalls _ c Hc) as (task & _ & Htask & _).
        apply lookup_lt_Some in Htask. lia.
    + exists [c0]. cbn [fst]. split_and!; [done..| |simpl; lia|simpl; lia].
      constructor; [|done]. split; [done|by left].
  - eapply Hone; [apply one_call_createComment|done..].
  - eapply Hone; [by rewrite getComments_run|done..].
  - eapply Hone; [by rewrite getComment_run|done..].
  - eapply Hone; [apply one_call_updateComment|done..].
  - eapply Hone; [apply one_call_deleteComment|done..].
Qed.

(** ** The batch: sizes of the three views, and the caller's objects *)

Lemma batchCreateTasks_state tasks s :
  (batchCreateTasks tasks s).1 = (batch_loop 0 tasks (mkBatch [] [] []) s).1.
Proof.
  unfold batchCreateTasks, try_catch.
  by destruct (batch_loop 0 tasks _ s) as [s' [res|e]].
Qed.

Lemma partition_lengths tasks : forall i rs,
  length tasks = length rs ->
  (length (omap result_success rs) + length (failure_records i tasks rs))%nat
  = length rs.
Proof.
  induction tasks as [|r tasks IH]; intros i [|[result|message] rs] Hlen;
    simpl in *; try done.
  - f_equal. apply IH. lia.
  - rewrite Nat.add_succ_r. f_equal. apply IH. lia.
Qed.

Lemma failure_records_sorted tasks : forall i rs,
  Forall (fun f => (i <= te_index f)%nat) (failure_records i tasks rs) /\
  StronglySorted lt (map te_index (failure_records i tasks rs)).
Proof.
  induction tasks as [|r tasks IH]; intros i rs; simpl.
  - split; constructor.
  - destruct rs as [|[result|message] rs]; simpl.
    + split; constructor.
    + destruct (IH (S i) rs) as [Hge Hsorted]. split; [|done].
      eapply Forall_impl; [exact Hge|]. simpl. lia.
    + destruct (IH (S i) rs) as [Hge Hsorted]. split.
      * constructor; [simpl; lia|]. eapply Forall_impl; [exact Hge|]. simpl. lia.
      * constructor; [done|]. apply Forall_fmap.
        eapply Forall_impl; [exact Hge|]. simpl. lia.
Qed.

(** X2. When a batch on task objects returns, [results] has one entry per
    input, [successes] and [failures] together have as many entries as
    there are inputs, the failure records come with strictly increasing
    indices, all of them indices of the input, and every failure message
    is a message of [createTask], with its prefix. *)
Theorem batch_views_add_up (tasks : list ref) s s' res :
  Forall (fun r => is_Some (heap s !! r)) tasks ->
  batchCreateTasks tasks s = (s', Returned res) ->
  length (results res) = length tasks /\
  (length (successes res) + length (failures res))%nat = length tasks /\
  StronglySorted lt (map te_index (failures res)) /\
  (forall f, f ∈ failures res ->
     (te_index f < length tasks)%nat /\
     exists message, te_error f = "Failed to create task list: " +:+ message).
Proof.
  intros Hheap Hrun.
  destruct (batch_loop_run tasks 0 (mkBatch [] [] []) s Hheap)
    as (calls & s1 & Hloop & _ & Hlen & _).
  unfold batchCreateTasks, try_catch in Hrun. rewrite Hloop in Hrun.
  injection Hrun as <- <-. simpl.
  assert (Hrs : length tasks = length (map result_of_call calls))
    by by rewrite length_map.
  split_and!.
  - by rewrite length_map.
  - rewrite partition_lengths by done. by rewrite length_map.
  - apply failure_records_sorted.
  - intros f Hf. apply elem_of_failure_records in Hf as (j & Hj & Htask & Hentry).
    split; [apply lookup_lt_Some in Htask; lia|].
    rewrite list_lookup_fmap in Hentry.
    destruct (calls !! j) as [c|]; [|done]. simpl in Hentry.
    injection Hentry as Hentry. unfold result_of_call in Hentry.
    destruct (call_item c); [done|]. injection Hentry as <-. by eexists.
Qed.

Lemma batch_task_record i task :
  batch_task i task =
    mkCreateTask (ct_cardId task) (ct_name task)
      (Some (assigned_position i (ct_position task))).
Proof.
  pose proof (batch_task_position i task) as Hpos. unfold batch_task in *.
  destruct (no_position _); simpl in Hpos.
  - f_equal. exact Hpos.
  - destruct task as [cardId name position]. simpl in *. by rewrite <- Hpos.
Qed.

Lemma assigned_position_nonzero i position : assigned_position i position <> 0.
Proof. unfold assigned_position. destruct position; repeat case_decide; lia. Qed.

(** X3. A batch writes to the caller's objects. After a batch on distinct
    task objects, the object of the input at index [j] has kept its card
    and its name and holds a position, never zero: its own when it had one
    other than zero, [65535 * (j + 1)] otherwise. Objects that are not in
    the input are untouched. *)
Theorem batch_writes_positions (tasks : list ref) s :
  NoDup tasks ->
  Forall (fun r => is_Some (heap s !! r)) tasks ->
  (forall j r task,
      tasks !! j = Some r -> heap s !! r = Some task ->
      heap (batchCreateTasks tasks s).1 !! r
        = Some (mkCreateTask (ct_cardId task) (ct_name task)
                  (Some (assigned_position j (ct_position task)))) /\
      assigned_position j (ct_position task) <> 0) /\
  (forall r, r ∉ tasks -> heap (batchCreateTasks tasks s).1 !! r = heap s !! r).
Proof.
  intros Hnodup Hheap. rewrite batchCreateTasks_state.
  destruct (batch_loop_positions tasks 0 (mkBatch [] [] []) s Hnodup Hheap)
    as (calls & _ & Hframe & Hcalls).
  split; [|done]. intros j r task Hj Hr.
  destruct (Hcalls j r task Hj Hr) as (c & _ & _ & ->).
  split; [by rewrite batch_task_record|apply assigned_position_nonzero].
Qed.

(** ** Answers without an item *)

Lemma get_prop_nullish v k :
  get_prop v k = if nullish v then Thrown (type_error v k) else Returned (opt_prop v k).
Proof. by destruct v. Qed.

(** X5. What the operations that hand back [response.item] do with an
    answer that has none. On an answer other than [null], [createTask],
    [createTaskInTaskList] and [updateTaskInTaskList] return its [item],
    which is [undefined] when the answer has no such property: they do not
    raise. On [null] they raise the [TypeError] of the property read,
    under their prefix in the two creations and bare in the update. When
    the item is missing or falsy, [createTask] records nothing in the
    map. *)
Theorem item_of_any_answer :
  (forall params s response,
      call_response (create_call s params) = Returned response ->
      (createTask params s).2 =
        (if nullish response
         then Thrown (JsError ("Failed to create task list: " +:+
                               error_message (type_error response "item")))
         else Returned (opt_prop response "item")) /\
      (truthy (opt_prop response "item") = false ->
       taskCardIdMap (createTask params s).1 = taskCardIdMap s)) /\
  (forall params s response,
      call_response (item_call s params) = Returned response ->
      (createTaskInTaskList params s).2 =
        (if nullish response
         then Thrown (JsError ("Failed to create task in task list: " +:+
                               error_message (type_error response "item")))
         else Returned (opt_prop response "item"))) /\
  (forall id options s response,
      call_response (answered s (Task id) (Some (task_patch_request options)))
        = Returned response ->
      (updateTaskInTaskList id options s).2 =
        (if nullish response
         then Thrown (type_error response "item")
         else Returned (opt_prop response "item"))).
Proof.
  split_and!.
  - intros params s response Hresp. rewrite createTask_run. cbn [fst snd]. split.
    + unfold call_item. rewrite Hresp, get_prop_nullish.
      by destruct (nullish response).
    + intros Hfalsy. simpl. unfold map_step, recorded, call_item.
      rewrite Hresp, get_prop_nullish.
      destruct (nullish response); simpl; [|rewrite Hfalsy]; by repeat case_match.
  - intros params s response Hresp. rewrite createTaskInTaskList_run. cbn [snd].
    unfold call_item. rewrite Hresp, get_prop_nullish.
    by destruct (nullish response).
  - intros id options s response Hresp. unfold updateTaskInTaskList, bind, lift.
    pose proof (plankaRequest_response (Task id) (Some (task_patch_request options)) s)
      as Hanswer.
    rewrite Hresp in Hanswer.
    destruct (plankaRequest _ _ s) as [s1 o]. simpl in Hanswer. subst o.
    rewrite get_prop_nullish. by destruct (nullish response).
Qed.

(** X6. [createTaskListWithTasks] does not check that a task list came
    back. When [createTask] hands back [undefined] or [null], the
    operation with no tasks returns that value as [taskList] with no
    items, and the operation with tasks raises the [TypeError] of reading
    [taskList.id], under its prefix, after the creation call and without
    any item call. *)
Theorem compound_without_task_list cardId name (tasks : list TaskSpec) s taskList :
  (createTask (mkCreateTask cardId name None) s).2 = Returned taskList ->
  nullish taskList = true ->
  (tasks = [] ->
   (createTaskListWithTasks cardId name tasks s).2
     = Returned (mkTaskListWithTasks taskList [])) /\
  (tasks <> [] ->
   (createTaskListWithTasks cardId name tasks s).2
     = Thrown (JsError ("Failed to create task list with tasks: " +:+
                        error_message (type_error taskList "id"))) /\
   trace (createTaskListWithTasks cardId name tasks s).1
     = trace s ++ [create_call s (mkCreateTask cardId name None)]).
Proof.
  rewrite createTask_run. cbn [snd]. intros Hitem Hnull.
  rewrite createTaskListWithTasks_run. cbv zeta.
  destruct (call_item _) as [item|e]; [|done]. injection Hitem as ->.
  split.
  - by intros ->.
  - intros Hne. destruct tasks as [|task tasks]; [done|].
    rewrite create_items_cons, get_prop_nullish, Hnull. done.
Qed.





(** ** Reading one task list *)

Lemma getTasks_run cardId s :
  getTasks cardId s =
    (after_call s (answered s (Card cardId) None),
     Returned match call_response (answered s (Card cardId) None) with
              | Returned response =>
                  match embedded_task_lists response with
                  | VArr taskLists => taskLists
                  | _ => []
                  end
              | Thrown _ => []
              end).
Proof.
  unfold getTasks, try_catch, bind, ret. rewrite plankaRequest_run by done.
  unfold answered. simpl. destruct (gateway _ _ _).2 as [response|e]; [|done].
  by destruct (embedded_task_lists response).
Qed.

Lemma find_task_list_found id taskLists tl :
  find_task_list id taskLists = Returned tl -> truthy tl = true ->
  tl ∈ taskLists /\ get_prop tl "id" = Returned (VStr id).
Proof.
  induction taskLists as [|x taskLists IH]; simpl.
  - by intros [= <-].
  - destruct (get_prop x "id") as [v|e] eqn:Hx; [|done].
    intros Hfind Htruthy.
    assert (Hrest : find_task_list id taskLists = Returned tl ->
                    tl ∈ x :: taskLists /\ get_prop tl "id" = Returned (VStr id)).
    { intros Hfind'. destruct (IH Hfind' Htruthy). split; [by right|done]. }
    destruct v as [| | | |str| |]; try by apply Hrest.
    destruct (String.eqb_spec str id) as [->|]; [|by apply Hrest].
    injection Hfind as <-. split; [by left|done].
Qed.

(** X9. What [getTask] returns is on the card. Whenever [getTask] returns
    a task list, it has read one card, the card of the argument or else of
    [taskCardIdMap[id]] (the recorded card or, for an id that names a
    member of [Object.prototype], that member as it prints); the task list
    is an element of what [getTasks] returns for that card in the same
    state; and its [id] is the string asked for. *)
Theorem getTask_returns_member id cardId s s' tl :
  getTask id cardId s = (s', Returned tl) ->
  exists c taskLists,
    effective_card_id cardId (card_lookup (taskCardIdMap s) id) = Some c /\
    s' = after_call s (answered s (Card c) None) /\
    (getTasks c s).2 = Returned taskLists /\
    tl ∈ taskLists /\
    get_prop tl "id" = Returned (VStr id).
Proof.
  rewrite getTask_run. destruct (effective_card_id _ _) as [c|]; [|done].
  intros [= <- Hfound]. unfold found_in_card in Hfound.
  destruct (call_response (answered s (Card c) None)) as [response|e] eqn:Hresp;
    pose proof Hresp as Hanswer; simpl in Hanswer; rewrite Hanswer in Hfound;
    [|done].
  destruct (embedded_task_lists response) as [| | | | |taskLists|] eqn:Harr;
    try done.
  destruct (find_task_list id taskLists) as [taskList|e] eqn:Hfind; [|done].
  destruct (truthy taskList) eqn:Htruthy; [|done].
  simpl in Hfound. injection Hfound as ->.
  destruct (find_task_list_found id taskLists tl Hfind Htruthy).
  exists c, taskLists. rewrite getTasks_run. cbn [snd]. rewrite Hresp, Harr.
  by split_and!.
Qed.

Lemma effective_card_lookup cardId (m : gmap string string) id c :
  effective_card_id cardId (m !! id) = Some c ->
  effective_card_id cardId (card_lookup m id) = Some c.
Proof.
  unfold card_lookup. destruct (m !! id) as [cardId'|]; [done|].
  unfold effective_card_id. destruct cardId as [c'|]; [|done].
  by case_decide.
Qed.

(** X10. A [null] among the task lists of a card. When the collection of
    the card holds [null] before any element with the id, [getTask] raises
    the [TypeError] of reading [id] of [null], under its prefix, whatever
    follows in the collection: a task list with the id, further on, is not
    found. *)
Theorem getTask_null_element id cardId s c response before x rest :
  effective_card_id cardId (taskCardIdMap s !! id) = Some c ->
  call_response (answered s (Card c) None) = Returned response ->
  embedded_task_lists response = VArr (before ++ x :: rest) ->
  Forall (other_id id) before ->
  nullish x = true ->
  (getTask id cardId s).2 =
    Thrown (JsError ("Failed to get task list: " +:+
                     error_message (type_error x "id"))).
Proof.
  intros Hc Hresp Harr Hbefore Hx.
  rewrite getTask_run, (effective_card_lookup _ _ _ _ Hc). cbn [snd].
  unfold found_in_card. rewrite Hresp, Harr.
  by rewrite (find_task_list_nullish id before x rest Hbefore Hx).
Qed.

(** ** Reading comments *)

Lemma find_comment_None id comments :
  find_comment id comments = None <-> Forall (fun c => ca_id c <> id) comments.
Proof.
  induction comments as [|x comments IH]; simpl; [by split; [constructor|]|].
  destruct (String.eqb_spec (ca_id x) id) as [Hx|Hx].
  - split; [done|]. by intros [? _]%Forall_cons.
  - rewrite IH. split; [by constructor|]. by intros [_ ?]%Forall_cons.
Qed.

(** X11. [getComment] scans what [getComments] returns. With the comments
    that [getComments] returns in the same state: a comment that
    [getComment] returns is one of them and has the id asked for;
    [getComment] returns whenever one of them has the id; and it raises
    the not-found error when none has. *)
Theorem getComment_scans_getComments id cardId s :
  exists comments,
    (getComments cardId s).2 = Returned comments /\
    (forall c, (getComment id cardId s).2 = Returned c ->
               ca_id c = id /\ c ∈ comments) /\
    ((exists c, c ∈ comments /\ ca_id c = id) ->
     exists c, (getComment id cardId s).2 = Returned c /\ ca_id c = id) /\
    (Forall (fun c => ca_id c <> id) comments ->
     (getComment id cardId s).2 =
       Thrown (JsError ("Failed to get comment: " +:+ "Comment with ID " +:+ id
                        +:+ " not found in card " +:+ cardId))).
Proof.
  rewrite getComments_run, getComment_run. cbn [snd].
  set (comments := normalized _). exists comments. split; [done|].
  destruct (find_comment id comments) as [c|] eqn:Hfind.
  - destruct (find_comment_Some id comments c Hfind) as [Hid Hin]. split_and!.
    + by intros c' [= <-].
    + intros _. by exists c.
    + intros Hnone. apply find_comment_None in Hnone. congruence.
  - split_and!; [done| |done].
    intros (c & Hin & Hid). apply find_comment_None in Hfind.
    by destruct (proj1 (Forall_forall _ _) Hfind c Hin).
Qed.

Lemma CommentActionSchema_represents v c :
  CommentActionSchema v = Some c -> represents v c.
Proof.
  unfold CommentActionSchema, represents.
  destruct v as [| | | | | |fields]; try done. simpl.
  destruct (assoc "id" fields); try done.
  destruct (assoc "type" fields) as [| | | |type| |]; try done.
  destruct (assoc "data" fields) as [| | | | | |data]; try done.
  destruct (assoc "cardId" fields); try done.
  destruct (assoc "userId" fields); try done.
  destruct (assoc "createdAt" fields); try done.
  destruct (String.eqb_spec type "commentCard") as [->|]; [|done].
  simpl. destruct (assoc "text" data); try done.
  destruct (assoc "updatedAt" fields); try done; by intros [= <-].
Qed.

(** X12. The comments handed back are the comments of the answer. A
    comment that [createComment] or [updateComment] returns has the id,
    text, card, user and dates of the [item] of the answer, and the type
    [commentCard]; every comment that [getComments] returns has those of
    one of the elements of the answer. *)
Theorem returned_comments_mirror_answer :
  (forall cardId text s c,
      (createComment cardId text s).2 = Returned c ->
      exists response,
        call_response
          (answered s (CardComments cardId)
             (Some (mkOptions POST (Some (VObj [("text", VStr text)])))))
          = Returned response /\
        represents (opt_prop response "item") c) /\
  (forall id text s c,
      (updateComment id text s).2 = Returned c ->
      exists response,
        call_response
          (answered s (Comment id)
             (Some (mkOptions PATCH (Some (obj [("text", VStr <$> text)])))))
          = Returned response /\
        represents (opt_prop response "item") c) /\
  (forall cardId s comments c,
      (getComments cardId s).2 = Returned comments ->
      c ∈ comments ->
      exists response v,
        call_response (answered s (CardComments cardId) None) = Returned response /\
        v ∈ answer_items response /\
        represents v c).
Proof.
  assert (Hitem : forall response c,
    CommentActionResponseSchema response = Some c ->
    represents (opt_prop response "item") c).
  { intros response c. unfold CommentActionResponseSchema.
    destruct response as [| | | | | |fields]; try done.
    destruct (included_ok fields); [|done]. apply CommentActionSchema_represents. }
  split_and!.
  - intros cardId text s c Hc.
    destruct (returns_validated_intro CommentActionResponseSchema
                "CommentActionResponseSchema" (CardComments cardId)
                (Some (mkOptions POST (Some (VObj [("text", VStr text)]))))
                (createComment cardId text)) with (s := s) (a := c)
      as (response & Hresp & Hvalid); [|done|by exists response; split; [|apply Hitem]].
    intros s0. unfold createComment, try_catch.
    destruct (bind _ _ s0) as [s1 [a|e]]; [by left|right; by eexists].
  - intros id text s c Hc.
    destruct (returns_validated_intro CommentActionResponseSchema
                "CommentActionResponseSchema" (Comment id)
                (Some (mkOptions PATCH (Some (obj [("text", VStr <$> text)]))))
                (updateComment id text)) with (s := s) (a := c)
      as (response & Hresp & Hvalid); [|done|by exists response; split; [|apply Hitem]].
    intros s0. unfold updateComment, try_catch.
    destruct (bind _ _ s0) as [s1 [a|e]]; [by left|right; by eexists].
  - intros cardId s comments c. rewrite getComments_run. cbn [snd].
    intros [= <-] Hc.
    destruct (normalized_items _ c Hc) as (response & v & Hresp & Hv & Hok).
    exists response, v. split_and!; [done..|]. by apply CommentActionSchema_represents.
Qed.

(** X13. One invalid comment empties the list. When the answer to the
    comments read, in either shape, carries an element that is not a valid
    comment, [getComments] returns the empty sequence, whatever the other
    elements are. *)
Theorem getComments_all_or_nothing cardId s response v :
  call_response (answered s (CardComments cardId) None) = Returned response ->
  v ∈ answer_items response ->
  CommentActionSchema v = None ->
  (getComments cardId s).2 = Returned [].
Proof.
  intros Hresp Hv Hbad. rewrite getComments_run, Hresp. cbn [snd]. f_equal.
  unfold normalized, answer_items in *.
  assert (Hnone : forall items, v ∈ items -> mapM CommentActionSchema items = None).
  { intros items Hin. apply mapM_None_2, Exists_exists. by exists v. }
  destruct response as [| | | | |items|fields]; simpl in *;
    try by apply elem_of_nil in Hv.
  - by rewrite Hnone.
  - destruct (assoc "items" fields) as [| | | | |items|] eqn:Hfield;
      try by apply elem_of_nil in Hv.
    destruct (included_ok fields); [|done].
    unfold CommentActionArraySchema. by rewrite Hnone.
Qed.

(** X15. When [createTaskListWithTasks] returns. With the calls it made,
    the creation call followed by the item calls, the operation returns
    exactly when the creation call handed back an item, there is one item
    call per task, and every item call handed back an item; in every other
    case it raises. *)
Theorem compound_returns_iff cardId name (tasks : list TaskSpec) s item_calls :
  let c0 := create_call s (mkCreateTask cardId name None) in
  let run := createTaskListWithTasks cardId name tasks s in
  trace run.1 = trace s ++ c0 :: item_calls ->
  (is_Returned run.2 = true <->
   (exists taskList, call_item c0 = Returned taskList) /\
   length item_calls = length tasks /\
   Forall (fun c => exists item, call_item c = Returned item) item_calls).
Proof.
  cbv zeta. rewrite createTaskListWithTasks_run. cbv zeta.
  set (c0 := create_call s (mkCreateTask cardId name None)).
  destruct (call_item c0) as [taskList|e0] eqn:Hc0; cbn [fst snd].
  - destruct (create_items_run taskList tasks 0 [] (after_call s c0))
      as (calls & Htrace & _ & _ & _ & Hout).
    intros Hcalls. rewrite Htrace in Hcalls. simpl in Hcalls.
    rewrite <- app_assoc in Hcalls. apply app_inv_head in Hcalls.
    injection Hcalls as <-.
    destruct (create_items _ _ _ _ _).2 as [createdTasks|e]; simpl.
    + destruct Hout as (Hlen & items & _ & Hitems). split; [|done]. intros _.
      split_and!; [by eexists|done|].
      apply Forall_lookup. intros j c Hj.
      destruct (Forall2_lookup_l _ _ _ _ _ Hitems Hj) as (item & _ & Hok).
      by exists item.
    + split; [done|]. intros (_ & Hlen & Hall).
      destruct Hout as [(-> & Hne & _)|(done' & bad & e1 & -> & _ & Hbad & _)].
      * destruct tasks; done.
      * apply Forall_app in Hall as [_ Hall].
        apply Forall_cons in Hall as [[item Hok] _]. congruence.
  - intros _. simpl. split; [done|]. by intros [[taskList ?] _].
Qed.

(** X14. Ids go into the paths as they are. A card id that ends in
    [/comments] makes the card read of [getTasks] the very request of
    [getComments] on the card id before it: same path, same answer, same
    effect on the service. *)
Theorem ids_are_not_escaped cardId s :
  path (Card (cardId +:+ "/comments")) = path (CardComments cardId) /\
  call_response (answered s (Card (cardId +:+ "/comments")) None)
    = call_response (answered s (CardComments cardId) None) /\
  remote (getTasks (cardId +:+ "/comments") s).1 = remote (getComments cardId s).1.
Proof. rewrite getTasks_run, getComments_run. by split_and!. Qed.

End Footprint_facts.

(** * The further properties on the scenarios *)

Lemma batch_views_add_up_witness :
  exists s' res,
    @batchCreateTasks scripted [0; 1; 2]%nat state_ABC = (s', Returned res) /\
    (length (successes res) + length (failures res))%nat = 3%nat.
Proof.
  assert (Hheap : Forall (fun r => is_Some (heap state_ABC !! r)) [0; 1; 2]%nat).
  { repeat (constructor; [vm_compute; eauto|]). constructor. }
  eexists _, _. split; [vm_compute; reflexivity|].
  refine (proj1 (proj2 (@batch_views_add_up scripted [0; 1; 2]%nat state_ABC _ _
                          Hheap _))).
  vm_compute. reflexivity.
Defined.

Lemma batch_writes_positions_witness :
  heap (@batchCreateTasks scripted [0; 1; 2]%nat state_ABC).1 !! 1%nat
    = Some (mkCreateTask "c1" "B" (Some 131070)).
Proof.
  assert (Hnodup : NoDup [0; 1; 2]%nat).
  { apply (bool_decide_unpack (NoDup [0; 1; 2]%nat)). vm_compute. exact I. }
  assert (Hheap : Forall (fun r => is_Some (heap state_ABC !! r)) [0; 1; 2]%nat).
  { repeat (constructor; [vm_compute; eauto|]). constructor. }
  destruct (@batch_writes_positions scripted [0; 1; 2]%nat state_ABC Hnodup Hheap)
    as [Hwritten _].
  exact (proj1 (Hwritten 1%nat 1%nat (mkCreateTask "c1" "B" None) eq_refl eq_refl)).
Defined.


Lemma item_of_any_answer_witness :
  (@createTask scripted (mkCreateTask "c1" "L" None) state_no_item).2
    = Returned VUndefined /\
  taskCardIdMap (@createTask scripted (mkCreateTask "c1" "L" None) state_no_item).1
    = taskCardIdMap state_no_item.
Proof.
  destruct (@item_of_any_answer scripted) as (Hcreate & _ & _).
  destruct (Hcreate (mkCreateTask "c1" "L" None) state_no_item
              (VObj [("included", VObj [])]) eq_refl) as [Hout Hmap].
  split; [exact Hout|exact (Hmap eq_refl)].
Defined.

Lemma compound_without_task_list_witness :
  (@createTaskListWithTasks scripted "c1" "L" three_items state_no_item).2
    = Thrown (JsError "Failed to create task list with tasks: Cannot read properties of undefined (reading 'id')") /\
  (@createTaskListWithTasks scripted "c1" "L" [] state_no_item).2
    = Returned (mkTaskListWithTasks VUndefined []).
Proof.
  split.
  - exact (proj1 (proj2 (@compound_without_task_list scripted "c1" "L" three_items
                           state_no_item VUndefined eq_refl eq_refl)
                    ltac:(discriminate))).
  - exact (proj1 (@compound_without_task_list scripted "c1" "L" []
                    state_no_item VUndefined eq_refl eq_refl) eq_refl).
Defined.



Lemma getTask_returns_member_witness :
  exists c taskLists,
    (@getTasks scripted c state_tl1_recorded).2 = Returned taskLists /\
    entity "tl1" "L" ∈ taskLists.
Proof.
  destruct (@getTask_returns_member scripted "tl1" None state_tl1_recorded
              (@getTask scripted "tl1" None state_tl1_recorded).1 (entity "tl1" "L"))
    as (c & taskLists & _ & _ & Hlist & Hin & _).
  { vm_compute. reflexivity. }
  by exists c, taskLists.
Defined.

Lemma getTask_null_element_witness :
  (@getTask scripted "tl1" (Some "c1") state_card_with_null).2
    = Thrown (JsError "Failed to get task list: Cannot read properties of null (reading 'id')").
Proof.
  apply (@getTask_null_element scripted "tl1" (Some "c1") state_card_with_null "c1"
           card_answer_with_null [] VNull [entity "tl1" "L"]);
    [reflexivity|reflexivity|reflexivity|constructor|reflexivity].
Defined.

Lemma getComment_scans_getComments_witness :
  exists c, (@getComment scripted "m1" "c1" state_comments).2 = Returned c /\
            ca_id c = "m1".
Proof.
  destruct (@getComment_scans_getComments scripted "m1" "c1" state_comments)
    as (comments & Hlist & _ & Hfound & _).
  apply Hfound. exists comment_m1.
  assert (comments = [comment_m1]) as ->.
  { vm_compute in Hlist. by injection Hlist as <-. }
  split; [by left|reflexivity].
Defined.

Lemma returned_comments_mirror_answer_witness :
  exists c, (@createComment scripted "c1" "hello" state_comment_created).2 = Returned c /\
            ca_text c = "hello" /\ ca_type c = "commentCard".
Proof.
  destruct (@returned_comments_mirror_answer scripted) as (Hcreate & _ & _).
  exists comment_m1. split; [vm_compute; reflexivity|].
  destruct (Hcreate "c1" "hello" state_comment_created comment_m1)
    as (response & Hresp & Hrep); [vm_compute; reflexivity|].
  split; [reflexivity|]. exact (proj1 (proj2 (proj2 Hrep))).
Defined.

Lemma getComments_all_or_nothing_witness :
  (@getComments scripted "c1" state_one_bad_comment).2 = Returned [].
Proof.
  apply (@getComments_all_or_nothing scripted "c1" state_one_bad_comment
           (VArr [comment_answer; VObj [("id", VStr "m2")]])
           (VObj [("id", VStr "m2")]));
    [reflexivity| |reflexivity].
  right. left.
Defined.

Lemma compound_returns_iff_witness :
  is_Returned (@createTaskListWithTasks scripted "c1" "L" three_items
                 state_items_created).2 = true /\
  is_Returned (@createTaskListWithTasks scripted "c1" "L" three_items
                 state_second_item_fails).2 = false.
Proof.
  split.
  - apply (proj2 (@compound_returns_iff scripted "c1" "L" three_items state_items_created
                    [mkCall (TaskListTasks "tl1") (Some (create_item_request "one" 65535 false))
                       (Returned (enveloped (entity "i1" "one")));
                     mkCall (TaskListTasks "tl1") (Some (create_item_request "two" 131070 true))
                       (Returned (enveloped (entity "i2" "two")));
                     mkCall (TaskListTasks "tl1") (Some (create_item_request "three" 196605 false))
                       (Returned (enveloped (entity "i3" "three")))]
                    eq_refl)).
    split_and!; [by eexists|reflexivity|].
    repeat (constructor; [by eexists|]). constructor.
  - destruct (is_Returned _) eqn:Hreturned; [|reflexivity].
    destruct (proj1 (@compound_returns_iff scripted "c1" "L" three_items
                       state_second_item_fails
                       [mkCall (TaskListTasks "tl1")
                          (Some (create_item_request "one" 65535 false))
                          (Returned (enveloped (entity "i1" "one")));
                        mkCall (TaskListTasks "tl1")
                          (Some (create_item_request "two" 131070 true))
                          (Thrown (JsError "boom"))]
                       eq_refl) Hreturned) as (_ & Hlen & _).
    discriminate Hlen.
Defined.
